(** * glitchtop: a shallow embedding of [config/glitchtop.py]

    The monitor is one Python file: a few pure helpers ([format_time],
    [get_system_status]), the multi-frame glitch animation ([glitch_line])
    and the curses loop ([draw]).  The helpers are embedded as functions,
    the effectful code in a small state-and-exception monad over a [World]
    that holds the random generator and the record of what was sent to the
    screen.

    Numbers.  Python floats (percentages, timestamps) are embedded as
    rationals [Q]; every threshold of the program is an integer, and Python
    ints are [Z].  What [f"{x:5.1f}"] prints for a float is not modelled:
    the float formatter is a parameter of the loop. *)

From Stdlib Require Import ZArith QArith Qround String Ascii List Bool Lia.
From Stdlib Require Import DecimalString Permutation Sorted.
Import ListNotations.

Local Open Scope string_scope.
Local Open Scope Z_scope.

(** ** Python primitives used by the program *)

Module Py.

(** [" " * n], ["0" * n]. *)
Fixpoint repeat_char (c : ascii) (n : nat) : string :=
  match n with
  | O => EmptyString
  | S k => String c (repeat_char c k)
  end.

(** [s.ljust(width)]: pad with blanks on the right, never truncate. *)
Definition ljust (s : string) (width : nat) : string :=
  s ++ repeat_char " " (width - String.length s).

(** [s.rjust(width)], what [f"{s:>9}"] and [f"{n:5d}"] do. *)
Definition rjust (s : string) (width : nat) : string :=
  repeat_char " " (width - String.length s) ++ s.

(** [s[:n]]: the first [n] characters, or all of [s] when it is shorter. *)
Fixpoint slice_to (n : nat) (s : string) : string :=
  match n, s with
  | S k, String c rest => String c (slice_to k rest)
  | _, _ => EmptyString
  end.

(** [str(n)] for a Python int. *)
Definition str_of_N (n : N) : string := NilZero.string_of_uint (N.to_uint n).

Definition str_of_Z (z : Z) : string :=
  if z <? 0 then "-" ++ str_of_N (Z.abs_N z) else str_of_N (Z.abs_N z).

(** [f"{z:0{width}d}"]: the sign first, then zeros up to [width]
    characters in all. *)
Definition fmt_0d (width : nat) (z : Z) : string :=
  let digits := str_of_N (Z.abs_N z) in
  if z <? 0
  then "-" ++ repeat_char "0" (width - 1 - String.length digits) ++ digits
  else repeat_char "0" (width - String.length digits) ++ digits.

(** [f"{z:{width}d}"]: right-aligned in blanks. *)
Definition fmt_d (width : nat) (z : Z) : string := rjust (str_of_Z z) width.

(** [int(x)] on a float: truncation towards zero. *)
Definition int (x : Q) : Z := Z.quot (Qnum x) (Zpos (Qden x)).

(** [divmod(a, b)]: floor division, remainder with the sign of [b]. *)
Definition divmod (a b : Z) : Z * Z := (a / b, a mod b).

(** A truthy Python string is a non-empty one. *)
Definition truthy (s : string) : bool :=
  match s with EmptyString => false | String _ _ => true end.

(** [a >= b] on floats. *)
Definition ge (a b : Q) : bool := Qle_bool b a.

(** [a > b] on floats. *)
Definition gt (a b : Q) : bool := negb (Qle_bool a b).

End Py.

(** ** Configuration constants *)

Definition GLITCH_CHARS : string :=
  "!@#$%^&*()_+=-[]{};:,.<>?ABCDEFGHIJKLMNOPQRSTUVWXYZ0123456789".

Definition TOP_N_PROCS : nat := 25.
Definition REFRESH_RATE : Q := 85 # 100.
Definition MAX_LOG_LINES : nat := 4.

Definition MIN_WAIT : Q := 3 # 1.
Definition MAX_WAIT : Q := 8 # 1.
Definition MIN_GLITCH_CHARS : Z := 1.
Definition MAX_GLITCH_CHARS : Z := 6.
Definition MIN_FRAMES : Z := 3.
Definition MAX_FRAMES : Z := 6.
Definition FRAME_DELAY : Q := 12 # 100.

Definition HEADER : list string :=
  [ "   _______  _____________________  ___   ____  __________  ____  ____  ______";
    "  / ___/\ \/ / ___/_  __/ ____/  |/  /  / __ \/ ____/ __ \/ __ \/ __ \/_  __/";
    "  \__ \  \  /\__ \ / / / __/ / /|_/ /  / /_/ / __/ / /_/ / / / / /_/ / / /   ";
    " ___/ /  / /___/ // / / /___/ /  / /  / _, _/ /___/ ____/ /_/ / _, _/ / /    ";
    "/____/  /_//____//_/ /_____/_/  /_/  /_/ |_/_____/_/    \____/_/ |_| /_/     ";
    " ";
    "==============================================================================";
    " " ].

(** ** Utilities *)

(** [format_time(seconds)]. *)
Definition format_time (seconds : Q) : string :=
  let '(m, s) := Py.divmod (Py.int seconds) 60 in
  let '(h, m) := Py.divmod m 60 in
  Py.fmt_0d 2 h ++ ":" ++ Py.fmt_0d 2 m ++ ":" ++ Py.fmt_0d 2 s.

(** [get_uptime()]: the two clock readings are its inputs. *)
Definition get_uptime (time_now boot_time : Q) : string :=
  format_time (time_now - boot_time)%Q.

(** [get_system_status(cpu, mem)]. *)
Definition get_system_status (cpu mem : Q) : string :=
  if Py.ge cpu 80 || Py.ge mem 85 then "CRITICAL"
  else if Py.ge cpu 60 || Py.ge mem 70 then "DEGRADED"
  else if Py.ge cpu 40 || Py.ge mem 60 then "MONITORING"
  else "NOMINAL".

(** ** Effects: exceptions, the random generator, the screen *)

(** The exceptions the program can meet.  The last two are not subclasses
    of [Exception]: an [except Exception] clause lets them through. *)
Inductive PyError : Type :=
| ValueError        (* random.randint / randrange on an empty range *)
| IndexError        (* random.choice on an empty sequence, list index *)
| NoSuchProcess     (* psutil: the process is gone *)
| AccessDenied      (* psutil: the process may not be read *)
| OtherError        (* any other subclass of Exception a collaborator raises *)
| KeyboardInterrupt (* the interrupt signal *)
| SystemExit.       (* sys.exit() *)

(** [isinstance(e, Exception)]. *)
Definition is_Exception (e : PyError) : bool :=
  match e with
  | KeyboardInterrupt | SystemExit => false
  | _ => true
  end.

(** A curses attribute: a colour pair, possibly [| curses.A_BOLD]. *)
Record Attr : Type := mkAttr { pair : nat; bold : bool }.

Definition color_pair (n : nat) : Attr := mkAttr n false.
Definition A_BOLD (a : Attr) : Attr := mkAttr (pair a) true.

(** What the program does to its terminal and to the clock, in order.
    The window is taken to be large enough for every write and the sleeps
    to be of non-negative durations: the [curses.error] of a write outside
    the window and the ValueError of [time.sleep] on a negative duration
    are not part of the embedding, and neither is what an exception leaves
    on the screen (an error result carries no world). *)
Inductive Event : Type :=
| Addstr (row col : Z) (text : string) (attr : Attr)
| Refresh
| Sleep (seconds : Q).

(** The world threaded through the effectful code.  [tape] is the random
    generator: the i-th call of a [random] function reads [tape i] and
    reduces it into the range asked for, so every value of the range can
    come out.  [trace] is the record of screen writes and sleeps, oldest
    first. *)
Record World : Type := mkWorld {
  tape : nat -> N;
  cursor : nat;
  trace : list Event
}.

Definition M (A : Type) : Type := World -> PyError + (A * World).

Definition ret {A} (a : A) : M A := fun w => inr (a, w).

Definition bind {A B} (m : M A) (k : A -> M B) : M B :=
  fun w => match m w with
           | inl e => inl e
           | inr (a, w') => k a w'
           end.

Definition raise {A} (e : PyError) : M A := fun _ => inl e.

Declare Scope py_scope.
Delimit Scope py_scope with py.
Notation "x <- m ;; k" := (bind m (fun x => k))
  (at level 100, m at next level, right associativity) : py_scope.
Notation "m ;; k" := (bind m (fun _ => k))
  (at level 100, right associativity) : py_scope.
Local Open Scope py_scope.

Definition emit (e : Event) : M unit :=
  fun w => inr (tt, mkWorld (tape w) (cursor w) (trace w ++ [e])).

Definition addstr (row col : Z) (text : string) (attr : Attr) : M unit :=
  emit (Addstr row col text attr).
Definition refresh : M unit := emit Refresh.
Definition sleep (seconds : Q) : M unit := emit (Sleep seconds).

Module Random.

(** One raw reading of the generator. *)
Definition next : M N :=
  fun w => inr (tape w (cursor w), mkWorld (tape w) (S (cursor w)) (trace w)).

(** [random.randint(a, b)]: an integer of [a..b], ValueError when empty. *)
Definition randint (a b : Z) : M Z :=
  if b <? a then raise ValueError
  else r <- next ;; ret (a + Z.of_N r mod (b - a + 1)).

(** [random.randrange(n)]: an index below [n], ValueError when [n] is 0. *)
Definition randrange (n : nat) : M nat :=
  match n with
  | O => raise ValueError
  | S _ => r <- next ;; ret (N.to_nat r mod n)%nat
  end.

(** [random.choice(s)] on a string. *)
Definition choice (s : string) : M ascii :=
  match String.get (0%nat) s with
  | None => raise IndexError
  | Some c0 =>
      r <- next ;;
      match String.get (N.to_nat r mod String.length s)%nat s with
      | Some c => ret c
      | None => ret c0
      end
  end.

(** [random.random()]: 53 random bits over 2^53, a float of [0, 1). *)
Definition unit_fraction (r : N) : Q :=
  Z.of_N (r mod 2 ^ 53)%N # 2 ^ 53.

(** [random.uniform(a, b)] is [a + (b - a) * random()]. *)
Definition uniform (a b : Q) : M Q :=
  r <- next ;; ret (a + (b - a) * unit_fraction r)%Q.

End Random.

(** [glitched[pos] = c] on a Python list: IndexError out of range. *)
Fixpoint setitem {A} (l : list A) (pos : nat) (c : A) : PyError + list A :=
  match l, pos with
  | [], _ => inl IndexError
  | _ :: rest, O => inr (c :: rest)
  | x :: rest, S k =>
      match setitem rest k c with
      | inl e => inl e
      | inr rest' => inr (x :: rest')
      end
  end.

Definition lift {A} (r : PyError + A) : M A :=
  match r with
  | inl e => raise e
  | inr a => ret a
  end.

(** ** The glitch animation *)

(** The inner loop of a frame, [for _ in range(n)]: pick a position,
    overwrite it with a glitch character. *)
Fixpoint corrupt (n : nat) (glitched : list ascii) : M (list ascii) :=
  match n with
  | O => ret glitched
  | S k =>
      pos <- Random.randrange (List.length glitched) ;;
      c <- Random.choice GLITCH_CHARS ;;
      glitched' <- lift (setitem glitched pos c) ;;
      corrupt k glitched'
  end.

(** One frame of [glitch_line]. *)
Definition glitch_frame (text : string) (color : Attr) (row x : Z)
    (min_chars max_chars : Z) (frame_delay : Q) : M unit :=
  let glitched := list_ascii_of_string text in
  count <- Random.randint min_chars max_chars ;;
  glitched' <- corrupt (Z.to_nat count) glitched ;;
  addstr row x (Py.ljust (string_of_list_ascii glitched') (String.length text)) color ;;
  refresh ;;
  sleep frame_delay.

(** The outer loop, [for _ in range(n)]. *)
Fixpoint glitch_frames (n : nat) (text : string) (color : Attr) (row x : Z)
    (min_chars max_chars : Z) (frame_delay : Q) : M unit :=
  match n with
  | O => ret tt
  | S k =>
      glitch_frame text color row x min_chars max_chars frame_delay ;;
      glitch_frames k text color row x min_chars max_chars frame_delay
  end.

(** [glitch_line(text, color, stdscr, row, x, min_chars, max_chars,
    min_frames, max_frames, frame_delay)]; [stdscr] is the world's trace. *)
Definition glitch_line (text : string) (color : Attr) (row x : Z)
    (min_chars max_chars min_frames max_frames : Z) (frame_delay : Q) : M unit :=
  frames <- Random.randint min_frames max_frames ;;
  glitch_frames (Z.to_nat frames) text color row x min_chars max_chars frame_delay.

(** The call with every default, as the loop makes it. *)
Definition glitch_line_default (text : string) (color : Attr) (row : Z) : M unit :=
  glitch_line text color row 4 MIN_GLITCH_CHARS MAX_GLITCH_CHARS
    MIN_FRAMES MAX_FRAMES FRAME_DELAY.

(** ** The process list *)

(** [p.info] of one enumerated process, as [psutil.process_iter] fills it.
    [username] may be [None], the case the code provides for; the other
    fields are taken to be present (on a [None] among them the code raises
    TypeError or AttributeError, which is not part of the embedding). *)
Record ProcInfo : Type := mkProcInfo {
  info_pid : Z;
  info_name : string;
  info_username : option string;
  info_cpu_percent : Q;
  info_memory_percent : Q;
  info_cpu_times_user : Q;
  info_cpu_times_system : Q
}.

(** What reading the details of one enumerated process does inside the
    [try]: it yields the details or raises. *)
Inductive ProcRead : Type :=
| Read (info : ProcInfo)
| Raises (e : PyError).

(** The dict appended to [processes]. *)
Record ProcEntry : Type := mkProcEntry {
  pid : Z;
  user : string;
  cpu : Q;
  mem : Q;
  time : string;
  name : string
}.

(** The dict built from one process:
    [p.info['username'][:8] if p.info['username'] else '?'] and so on. *)
Definition make_entry (info : ProcInfo) : ProcEntry :=
  let total_time := (info_cpu_times_user info + info_cpu_times_system info)%Q in
  {| pid := info_pid info;
     user := match info_username info with
             | Some u => if Py.truthy u then Py.slice_to 8 u else "?"
             | None => "?"
             end;
     cpu := info_cpu_percent info;
     mem := info_memory_percent info;
     time := format_time total_time;
     name := Py.slice_to 20 (info_name info) |}.

(** The body of the [try]. *)
Definition try_body (p : ProcRead) : PyError + ProcEntry :=
  match p with
  | Read info => inr (make_entry info)
  | Raises e => inl e
  end.

(** [except (psutil.NoSuchProcess, psutil.AccessDenied)]. *)
Definition caught (e : PyError) : bool :=
  match e with
  | NoSuchProcess | AccessDenied => true
  | _ => false
  end.

(** [for p in psutil.process_iter(...)], with [processes] the list built
    so far. *)
Fixpoint process_loop (reads : list ProcRead) (processes : list ProcEntry)
    : PyError + list ProcEntry :=
  match reads with
  | [] => inr processes
  | p :: rest =>
      match try_body p with
      | inr entry => process_loop rest (processes ++ [entry])
      | inl e => if caught e then process_loop rest processes else inl e
      end
  end.

(** [list.sort(key=..., reverse=True)].  Python's sort is stable, also with
    [reverse=True]: items go by decreasing key and items of equal keys stay
    in their original order.  On totally ordered keys every such sort
    computes the same list; it is embedded as the insertion sort that
    does. *)
Section Sort.
Context {A : Type} (key : A -> Q).

Fixpoint insert_desc (x : A) (l : list A) : list A :=
  match l with
  | [] => [x]
  | y :: rest =>
      if Py.gt (key y) (key x) then y :: insert_desc x rest
      else x :: y :: rest
  end.

Definition sort_reverse (l : list A) : list A :=
  fold_right insert_desc [] l.
End Sort.

(** ** The scrolling log *)

(** [log_lines.append(log_message)], then [log_lines.pop(0)] when the list
    has grown over [MAX_LOG_LINES]. *)
Definition log_append (log_lines : list string) (log_message : string)
    : list string :=
  let log_lines := (log_lines ++ [log_message])%list in
  if (MAX_LOG_LINES <? List.length log_lines)%nat then List.tl log_lines
  else log_lines.

(** ** The draw loop *)

(** [for i, x in enumerate(l)] with an effectful body. *)
Fixpoint for_enumerate {A} (body : nat -> A -> M unit) (i : nat) (l : list A)
    : M unit :=
  match l with
  | [] => ret tt
  | x :: rest => body i x ;; for_enumerate body (S i) rest
  end.

(** [needle in line] on strings. *)
Fixpoint contains (needle line : string) : bool :=
  String.prefix needle line ||
  match line with
  | EmptyString => false
  | String _ rest => contains needle rest
  end.

(** What one iteration reads from its collaborators: the keyboard, psutil
    and the clock. *)
Record TickEnv : Type := mkTickEnv {
  getch : PyError + Z;          (* stdscr.getch(), or the exception it raises *)
  cpu_percent : Q;              (* psutil.cpu_percent(interval=None) *)
  virtual_memory_percent : Q;   (* psutil.virtual_memory().percent *)
  loadavg : Q;                  (* psutil.getloadavg()[0] *)
  time_uptime : Q;              (* time.time() in get_uptime() *)
  boot_time : Q;                (* psutil.boot_time() *)
  time_check : Q;               (* time.time() in the glitch test *)
  time_after_glitch : Q;        (* time.time() after glitch_line returns *)
  process_iter : list ProcRead; (* the enumerated processes *)
  strftime : string             (* time.strftime('%H:%M:%S') *)
}.

(** The variables of [draw] that live across iterations. *)
Record LoopState : Type := mkLoopState {
  last_status_glitch_time : Q;
  log_lines : list string
}.

(** Row geometry, fixed once the header is drawn. *)
Definition status_row : Z := 1 + Z.of_nat (List.length HEADER).
Definition base_row : Z := status_row + 2.
Definition live_feed_row : Z := status_row - 1.
(** [len(system_lines)]: the overview always has seven lines. *)
Definition system_lines_count : Z := 7.
Definition proc_start : Z := base_row + system_lines_count + 1.
Definition separator_row : Z := proc_start + Z.of_nat TOP_N_PROCS + 1.
Definition log_start_row : Z := separator_row + 1.

(** [ord('q')]. *)
Definition ord_q : Z := 113.

(** The key poll at the top of an iteration,
    [try: key = stdscr.getch(); if key == ord('q'): break]
    [except Exception: pass]: whether to break, or the exception that the
    clause does not catch. *)
Definition key_poll (env : TickEnv) : PyError + bool :=
  match getch env with
  | inr key => inr (key =? ord_q)
  | inl e => if is_Exception e then inr false else inl e
  end.

Definition generate_device_id : M string :=
  a <- Random.randint 10000 99999 ;;
  b <- Random.randint 10000 99999 ;;
  c <- Random.randint 100000000000 999999999999 ;;
  ret (Py.str_of_Z a ++ "-" ++ Py.str_of_Z b ++ "-" ++ Py.str_of_Z c).

Definition STATUS_LINE (status_text_val : string) : string :=
  "SYSTEM STATUS: " ++ status_text_val.

Definition status_color (status_text_val : string) : Attr :=
  if String.eqb status_text_val "CRITICAL" then A_BOLD (color_pair 5)
  else if String.eqb status_text_val "DEGRADED" then A_BOLD (color_pair 1)
  else color_pair 4.

(** The status line of one iteration: the glitch test, the animation when
    it passes, the clean redraw.  Returns [last_status_glitch_time]. *)
Definition status_line_step (env : TickEnv) (last_status_glitch_time : Q) : M Q :=
  let status_text_val :=
    get_system_status (cpu_percent env) (virtual_memory_percent env) in
  let line := STATUS_LINE status_text_val in
  let color := status_color status_text_val in
  wait <- Random.uniform MIN_WAIT MAX_WAIT ;;
  last <- (if Py.gt (time_check env - last_status_glitch_time)%Q wait
           then glitch_line_default line color status_row ;;
                ret (time_after_glitch env)
           else ret last_status_glitch_time) ;;
  addstr status_row 4 (Py.ljust line 40) color ;;
  ret last.

Definition cpu_color (c : Q) : Attr :=
  if Py.gt c 50 then A_BOLD (color_pair 5)
  else if Py.gt c 20 then color_pair 6 else color_pair 4.

Definition mem_color (m : Q) : Attr :=
  if Py.gt m 50 then A_BOLD (color_pair 5)
  else if Py.gt m 20 then color_pair 7 else color_pair 4.

(** [for text, color in line_parts: addstr(row, x, text, color); x += len(text)]. *)
Fixpoint draw_parts (row x : Z) (line_parts : list (string * Attr)) : M unit :=
  match line_parts with
  | [] => ret tt
  | (text, color) :: rest =>
      addstr row x text color ;;
      draw_parts row (x + Z.of_nat (String.length text)) rest
  end.

(** The rendering of the log block. *)
Definition draw_log (log_lines : list string) : M unit :=
  for_enumerate
    (fun i line => addstr (log_start_row + Z.of_nat i) 4 (Py.ljust line 60) (color_pair 6))
    0%nat log_lines.

(** The entries shown in the table: [processes[:TOP_N_PROCS]] after the
    sort. *)
Definition displayed (processes : list ProcEntry) : list ProcEntry :=
  firstn TOP_N_PROCS (sort_reverse cpu processes).

Section Loop.

(** [f"{x:{width}.{prec}f}"]; width 0 stands for no width. *)
Variable fmt_f : nat -> nat -> Q -> string.

Definition system_lines (cpu mem load : Q) (uptime : string) : list string :=
  [ "---------------------- SYSTEM OVERVIEW ----------------------";
    "CPU Usage : " ++ fmt_f 5 1 cpu ++ "%";
    "Memory    : " ++ fmt_f 5 1 mem ++ "%";
    "Load Avg  : " ++ fmt_f 5 2 load;
    "Uptime    : " ++ uptime;
    " ";
    "------------------------- PROCESSES -------------------------" ].

Definition overview_color (line : string) : Attr :=
  if contains "CPU" line then color_pair 2
  else if contains "Memory" line then color_pair 3
  else if contains "Load" line then color_pair 6
  else if contains "Uptime" line then color_pair 4
  else color_pair 8.

Definition draw_overview (lines : list string) : M unit :=
  for_enumerate
    (fun i line => addstr (base_row + Z.of_nat i) 4 (Py.ljust line 40) (overview_color line))
    0%nat lines.

Definition line_parts (p : ProcEntry) : list (string * Attr) :=
  [ (Py.fmt_d 5 (pid p) ++ " ", color_pair 8);
    (Py.ljust (user p) 8 ++ " ", color_pair 8);
    (fmt_f 5 1 (cpu p) ++ " ", cpu_color (cpu p));
    (fmt_f 5 1 (mem p) ++ " ", mem_color (mem p));
    (Py.rjust (time p) 9 ++ " ", color_pair 8);
    (Py.ljust (name p) 20, color_pair 8) ].

Definition draw_table (rows : list ProcEntry) : M unit :=
  for_enumerate
    (fun i p => draw_parts (proc_start + Z.of_nat i) 4 (line_parts p))
    0%nat rows.

Definition log_message (env : TickEnv) : string :=
  "[" ++ strftime env ++ "] CPU " ++ fmt_f 0 1 (cpu_percent env)
      ++ "%, MEM " ++ fmt_f 0 1 (virtual_memory_percent env) ++ "%".

(** The LOGS block of one iteration. *)
Definition log_step (env : TickEnv) (log_lines : list string) : M (list string) :=
  let log_lines := log_append log_lines (log_message env) in
  draw_log log_lines ;;
  ret log_lines.

(** One iteration of [while True]; [None] is the [break]. *)
Definition tick (env : TickEnv) (st : LoopState) : M (option LoopState) :=
  quit <- lift (key_poll env) ;;
  if quit then ret None
  else
    let cpu := cpu_percent env in
    let mem := virtual_memory_percent env in
    let load := loadavg env in
    let uptime := get_uptime (time_uptime env) (boot_time env) in
    live_feed <- generate_device_id ;;
    addstr live_feed_row 4 ("HANDSHAKE ID: " ++ live_feed) (color_pair 6) ;;
    last <- status_line_step env (last_status_glitch_time st) ;;
    draw_overview (system_lines cpu mem load uptime) ;;
    processes <- lift (process_loop (process_iter env) []) ;;
    addstr (proc_start - 1) 4 " PID   USER     CPU%   MEM%    TIME     COMMAND"
           (A_BOLD (color_pair 8)) ;;
    draw_table (displayed processes) ;;
    addstr separator_row 4 (Py.repeat_char "-" 60) (color_pair 8) ;;
    logs <- log_step env (log_lines st) ;;
    refresh ;;
    sleep REFRESH_RATE ;;
    ret (Some (mkLoopState last logs)).

(** What [draw] does before the loop; [time0] is its reading of the
    clock.  The curses set-up (cursor, colours, the eight colour pairs)
    writes nothing and is left out. *)
Definition draw_init (time0 : Q) : M LoopState :=
  for_enumerate
    (fun i line => addstr (1 + Z.of_nat i) 2 line (color_pair 8))
    0%nat HEADER ;;
  live_feed <- generate_device_id ;;
  addstr live_feed_row 4 ("DEVICE ID: " ++ live_feed) (color_pair 6) ;;
  ret (mkLoopState time0 []).

(** The loop over the iterations whose readings are given, up to the
    first [break]. *)
Fixpoint run_ticks (envs : list TickEnv) (st : LoopState) : M LoopState :=
  match envs with
  | [] => ret st
  | env :: rest =>
      r <- tick env st ;;
      match r with
      | None => ret st
      | Some st' => run_ticks rest st'
      end
  end.

Definition draw (time0 : Q) (envs : list TickEnv) : M LoopState :=
  st <- draw_init time0 ;;
  run_ticks envs st.

End Loop.

(** ** Vocabulary of the statements *)

(** The world after more events were sent to the screen. *)
Definition add_events (w : World) (evs : list Event) : World :=
  mkWorld (tape w) (cursor w) (trace w ++ evs).

(** The wait that [random.uniform(MIN_WAIT, MAX_WAIT)] returns on the raw
    reading [r]. *)
Definition wait_of (r : N) : Q :=
  (MIN_WAIT + (MAX_WAIT - MIN_WAIT) * Random.unit_fraction r)%Q.

(** The three events of an animation frame showing [shown]. *)
Definition frame_events (shown : string) (color : Attr) (row x : Z)
    (frame_delay : Q) : list Event :=
  [Addstr row x shown color; Refresh; Sleep frame_delay].

(** The clean redraw of the status line. *)
Definition status_redraw (env : TickEnv) : Event :=
  let status_text_val :=
    get_system_status (cpu_percent env) (virtual_memory_percent env) in
  Addstr status_row 4 (Py.ljust (STATUS_LINE status_text_val) 40)
         (status_color status_text_val).

(** The screen writes of a loop over [enumerate(l)] whose body is one
    write. *)
Fixpoint enumerate_events {A} (write : nat -> A -> Event) (i : nat) (l : list A)
    : list Event :=
  match l with
  | [] => []
  | x :: rest => write i x :: enumerate_events write (S i) rest
  end.

(** The writes that render the log block. *)
Definition log_events (log_lines : list string) : list Event :=
  enumerate_events
    (fun i line => Addstr (log_start_row + Z.of_nat i) 4 (Py.ljust line 60) (color_pair 6))
    0%nat log_lines.

(** The texts written at or below the first log row, in order: the log
    as a trace shows it. *)
Definition rendered_log (evs : list Event) : list string :=
  flat_map (fun e => match e with
                     | Addstr row _ text _ =>
                         if log_start_row <=? row then [text] else []
                     | _ => []
                     end) evs.

(** The same readings with another process enumeration. *)
Definition with_processes (env : TickEnv) (reads : list ProcRead) : TickEnv :=
  mkTickEnv (getch env) (cpu_percent env) (virtual_memory_percent env)
    (loadavg env) (time_uptime env) (boot_time env) (time_check env)
    (time_after_glitch env) reads (strftime env).

(** The entries of the reads that succeeded, in enumeration order. *)
Definition entries_of (reads : list ProcRead) : list ProcEntry :=
  flat_map (fun p => match p with
                     | Read info => [make_entry info]
                     | Raises _ => []
                     end) reads.

(** A read that fails the way the [except] clause expects. *)
Definition transient (p : ProcRead) : bool :=
  match p with
  | Read _ => false
  | Raises e => caught e
  end.

(** Decreasing order of cpu: each entry is at least as busy as the ones
    after it. *)
Definition cpu_desc (a b : ProcEntry) : Prop := (cpu b <= cpu a)%Q.

(** The entries whose cpu is [c], in the order of the list. *)
Definition with_cpu (c : Q) (l : list ProcEntry) : list ProcEntry :=
  filter (fun p => Qeq_bool (cpu p) c) l.

(** The glitch schedule as the specification words it, to compare with the
    loop: a stored [next_wait], drawn when a glitch triggers and kept until
    the next one. *)
Module GlitchScheduleSpec.

Record GlitchSchedule : Type := mkGlitchSchedule {
  last_glitch_time : Q;
  next_wait : Q
}.

(** Step 5: the elapsed time exceeds the current [next_wait]. *)
Definition fires (s : GlitchSchedule) (now : Q) : bool :=
  Py.gt (now - last_glitch_time s)%Q (next_wait s).

(** Step 5 on one tick; [redraw] is the wait drawn if the glitch
    triggers, and no wait is drawn otherwise. *)
Definition step (s : GlitchSchedule) (now after redraw : Q) : GlitchSchedule :=
  if fires s now then mkGlitchSchedule after redraw else s.

End GlitchScheduleSpec.

(** A float formatter for the concrete runs: the integer part of [x],
    right-aligned in [width]. *)
Definition fmt_floor (width prec : nat) (x : Q) : string :=
  Py.rjust (Py.str_of_Z (Qfloor x)) width.

(** A generator that reads [r] at position [i] and 0 elsewhere. *)
Definition tape_at (i : nat) (r : N) : nat -> N :=
  fun j => if Nat.eqb j i then r else 0%N.

(** The writes of [draw_parts]. *)
Fixpoint parts_events (row x : Z) (line_parts : list (string * Attr)) : list Event :=
  match line_parts with
  | [] => []
  | (text, color) :: rest =>
      Addstr row x text color
      :: parts_events row (x + Z.of_nat (String.length text)) rest
  end.

(** The writes of the table rows, from row index [i] on. *)
Fixpoint rows_events (fmt_f : nat -> nat -> Q -> string) (i : nat)
    (rows : list ProcEntry) : list Event :=
  match rows with
  | [] => []
  | p :: rest =>
      (parts_events (proc_start + Z.of_nat i) 4 (line_parts fmt_f p)
       ++ rows_events fmt_f (S i) rest)%list
  end.

(** Everything an iteration sends to the screen after the status line,
    given the entries collected and the log it started with. *)
Definition tick_tail_events (fmt_f : nat -> nat -> Q -> string) (env : TickEnv)
    (processes : list ProcEntry) (log : list string) : list Event :=
  (enumerate_events
     (fun i line => Addstr (base_row + Z.of_nat i) 4 (Py.ljust line 40)
                           (overview_color line))
     0%nat
     (system_lines fmt_f (cpu_percent env) (virtual_memory_percent env)
        (loadavg env) (get_uptime (time_uptime env) (boot_time env)))
   ++ [Addstr (proc_start - 1) 4 " PID   USER     CPU%   MEM%    TIME     COMMAND"
              (A_BOLD (color_pair 8))]
   ++ rows_events fmt_f 0%nat (displayed processes)
   ++ [Addstr separator_row 4 (Py.repeat_char "-" 60) (color_pair 8)]
   ++ log_events (log_append log (log_message fmt_f env))
   ++ [Refresh; Sleep REFRESH_RATE])%list.

(** The part of an iteration before the process list: the device id line
    and the status line. *)
Definition tick_head (env : TickEnv) (last_status_glitch_time : Q) : M Q :=
  live_feed <- generate_device_id ;;
  addstr live_feed_row 4 ("HANDSHAKE ID: " ++ live_feed) (color_pair 6) ;;
  status_line_step env last_status_glitch_time.

(** The frames of an animation that corrupts nothing. *)
Fixpoint clean_frames (n : nat) (text : string) (color : Attr) (row x : Z)
    (frame_delay : Q) : list Event :=
  match n with
  | O => []
  | S k =>
      (frame_events text color row x frame_delay
       ++ clean_frames k text color row x frame_delay)%list
  end.

(** Readings for the concrete runs: no key pressed, a quiet machine, three
    enumerated processes of which the second cannot be read; the glitch
    test reads the clock at 5, the loop having started at 0. *)
Definition sample_env : TickEnv :=
  mkTickEnv (inr (-1)) 10 10 1 100 0 5 6
    [ Read (mkProcInfo 1 "init" None 1 2 3 4);
      Raises AccessDenied;
      Read (mkProcInfo 2 "bash" (Some "cameronthepiper") 30 2 3 4) ]
    "12:00:00".

(** The same readings one refresh interval later. *)
Definition sample_env_next : TickEnv :=
  mkTickEnv (inr (-1)) 10 10 1 (10085 # 100) 0 (585 # 100) (685 # 100)
    (process_iter sample_env) "12:00:01".

(** A generator whose every reading is 0. *)
Definition zero_world : World := mkWorld (fun _ => 0%N) 0 [].

(** How grave a status is: NOMINAL 0, MONITORING 1, DEGRADED 2,
    CRITICAL 3. *)
Definition severity (status_text_val : string) : nat :=
  if String.eqb status_text_val "CRITICAL" then 3
  else if String.eqb status_text_val "DEGRADED" then 2
  else if String.eqb status_text_val "MONITORING" then 1
  else 0.

(** The number of positions at which two buffers differ. *)
Fixpoint differences (l l' : list ascii) : nat :=
  match l, l' with
  | a :: rest, b :: rest' =>
      ((if Ascii.eqb a b then 0 else 1) + differences rest rest')%nat
  | _, _ => 0%nat
  end.

(** [c in s] for a character. *)
Fixpoint occurs (c : ascii) (s : string) : bool :=
  match s with
  | EmptyString => false
  | String d rest => Ascii.eqb c d || occurs c rest
  end.

(** A character of a frame against the character of the text at the same
    place: kept, or replaced by a glitch character. *)
Definition kept_or_glitch (a b : ascii) : Prop :=
  a = b \/ occurs b GLITCH_CHARS = true.

(** What a frame may show of [text] when at most [budget] replacements
    are made: a string of the same length, differing at no more than
    [budget] places, glitch characters at the places that differ. *)
Definition glitched_from (text : string) (budget : nat) (shown : string) : Prop :=
  String.length shown = String.length text
  /\ (differences (list_ascii_of_string text) (list_ascii_of_string shown)
      <= budget)%nat
  /\ Forall2 kept_or_glitch (list_ascii_of_string text) (list_ascii_of_string shown).

(** The events of an animation showing the strings [shows], one frame
    each. *)
Definition animation_events (shows : list string) (color : Attr) (row x : Z)
    (frame_delay : Q) : list Event :=
  flat_map (fun shown => frame_events shown color row x frame_delay) shows.

(** An event that writes nothing outside the rows [lo <= row < hi]. *)
Definition in_rows (lo hi : Z) (e : Event) : Prop :=
  match e with
  | Addstr row _ _ _ => lo <= row < hi
  | _ => True
  end.

(** The same readings with another outcome of [stdscr.getch()]. *)
Definition with_getch (env : TickEnv) (key : PyError + Z) : TickEnv :=
  mkTickEnv key (cpu_percent env) (virtual_memory_percent env)
    (loadavg env) (time_uptime env) (boot_time env) (time_check env)
    (time_after_glitch env) (process_iter env) (strftime env).

(** A read that the process loop gets past: it succeeds or raises what the
    [except] clause catches. *)
Definition passes (p : ProcRead) : bool :=
  match p with
  | Read _ => true
  | Raises e => caught e
  end.

(** The number of frames of a call of [glitch_line] made in [w]: what
    [random.randint(min_frames, max_frames)] returns there. *)
Definition drawn_frames (min_frames max_frames : Z) (w : World) : nat :=
  Z.to_nat (min_frames
            + Z.of_N (tape w (cursor w)) mod (max_frames - min_frames + 1)).

(** The count of frame [k] of that call, what
    [random.randint(min_chars, max_chars)] returns in it, when no frame
    before it made a replacement: the call has then read the generator once
    for the frames and once per earlier frame. *)
Definition drawn_chars (min_chars max_chars : Z) (w : World) (k : nat) : Z :=
  min_chars
  + Z.of_N (tape w (cursor w + 1 + k)) mod (max_chars - min_chars + 1).

(** * Properties *)

(** ** Comparisons and strings *)

Lemma ge_spec (a b : Q) : Py.ge a b = true <-> (b <= a)%Q.
Proof. unfold Py.ge. apply Qle_bool_iff. Qed.

Lemma gt_spec (a b : Q) : Py.gt a b = true <-> (b < a)%Q.
Proof.
  unfold Py.gt. rewrite negb_true_iff. split.
  - intros H. apply Qnot_le_lt. intros Hle.
    apply Qle_bool_iff in Hle. congruence.
  - intros H. destruct (Qle_bool a b) eqn:E; [|reflexivity].
    apply Qle_bool_iff in E. exfalso. exact (Qlt_not_le _ _ H E).
Qed.

Lemma gt_false (a b : Q) : Py.gt a b = false <-> ~ (b < a)%Q.
Proof.
  rewrite <- gt_spec. destruct (Py.gt a b); split; congruence.
Qed.

Lemma append_empty_r (s : string) : s ++ "" = s.
Proof. induction s as [|c s IH]; simpl; [reflexivity | now rewrite IH]. Qed.

Lemma ljust_own_length (s : string) : Py.ljust s (String.length s) = s.
Proof.
  unfold Py.ljust. rewrite Nat.sub_diag. simpl. apply append_empty_r.
Qed.

Lemma slice_to_length (n : nat) (s : string) :
  String.length (Py.slice_to n s) = Nat.min n (String.length s).
Proof.
  revert s. induction n as [|n IH]; intros [|c s]; simpl; auto.
Qed.

Lemma slice_to_prefix (n : nat) (s : string) :
  exists rest, s = Py.slice_to n s ++ rest.
Proof.
  revert s. induction n as [|n IH]; intros s.
  - exists s. destruct s; reflexivity.
  - destruct s as [|c s].
    + exists "". reflexivity.
    + destruct (IH s) as [rest Hrest]. exists rest. simpl. now rewrite <- Hrest.
Qed.

(** ** The status policy *)

(** C3: [get_system_status] is total and follows the four rules in order,
    the first match winning, with inclusive lower bounds; the documented
    samples come out as stated. *)
Theorem get_system_status_policy : forall cpu mem : Q,
  ((80 <= cpu \/ 85 <= mem)%Q -> get_system_status cpu mem = "CRITICAL")
  /\ (~ (80 <= cpu \/ 85 <= mem)%Q -> (60 <= cpu \/ 70 <= mem)%Q ->
      get_system_status cpu mem = "DEGRADED")
  /\ (~ (80 <= cpu \/ 85 <= mem)%Q -> ~ (60 <= cpu \/ 70 <= mem)%Q ->
      (40 <= cpu \/ 60 <= mem)%Q ->
      get_system_status cpu mem = "MONITORING")
  /\ (~ (80 <= cpu \/ 85 <= mem)%Q -> ~ (60 <= cpu \/ 70 <= mem)%Q ->
      ~ (40 <= cpu \/ 60 <= mem)%Q ->
      get_system_status cpu mem = "NOMINAL")
  /\ get_system_status 80 mem = "CRITICAL"
  /\ get_system_status 85 50 = "CRITICAL"
  /\ get_system_status 65 50 = "DEGRADED"
  /\ get_system_status 45 50 = "MONITORING"
  /\ get_system_status 10 10 = "NOMINAL".
Proof.
  intros cpu mem.
  assert (Hor : forall a b x y,
             Py.ge x a || Py.ge y b = true <-> (a <= x \/ b <= y)%Q).
  { intros. rewrite orb_true_iff, !ge_spec. tauto. }
  assert (Hnor : forall a b x y,
             ~ (a <= x \/ b <= y)%Q -> Py.ge x a || Py.ge y b = false).
  { intros a b x y H. destruct (Py.ge x a || Py.ge y b) eqn:E; [|reflexivity].
    apply Hor in E. contradiction. }
  unfold get_system_status.
  repeat split.
  - intros H. apply Hor in H. now rewrite H.
  - intros H1 H2. rewrite (Hnor _ _ _ _ H1). apply Hor in H2. now rewrite H2.
  - intros H1 H2 H3. rewrite (Hnor _ _ _ _ H1), (Hnor _ _ _ _ H2).
    apply Hor in H3. now rewrite H3.
  - intros H1 H2 H3.
    now rewrite (Hnor _ _ _ _ H1), (Hnor _ _ _ _ H2), (Hnor _ _ _ _ H3).
Qed.

Lemma get_system_status_policy_witness :
  (80 <= 85 \/ 85 <= 50)%Q /\ get_system_status 85 50 = "CRITICAL".
Proof.
  assert (H : (80 <= 85 \/ 85 <= 50)%Q).
  { left. unfold Qle. simpl. lia. }
  split; [exact H|].
  exact (proj1 (get_system_status_policy 85 50) H).
Defined.

(** ** Time formatting *)

Lemma int_inject_Z (z : Z) : Py.int (inject_Z z) = z.
Proof. unfold Py.int. simpl. apply Z.quot_1_r. Qed.

(** C8: [format_time] prints hours, minutes and seconds, each zero-padded
    to two digits and separated by colons: 3661 gives "01:01:01", 0 gives
    "00:00:00", 86399 gives "23:59:59"; for a whole number [n] of seconds
    the fields are [n / 3600], [(n / 60) mod 60] and [n mod 60]. *)
Theorem format_time_hms :
  format_time 3661 = "01:01:01"
  /\ format_time 0 = "00:00:00"
  /\ format_time 86399 = "23:59:59"
  /\ forall n : N,
       format_time (inject_Z (Z.of_N n)) =
       Py.fmt_0d 2 (Z.of_N n / 3600) ++ ":" ++
       Py.fmt_0d 2 ((Z.of_N n / 60) mod 60) ++ ":" ++
       Py.fmt_0d 2 (Z.of_N n mod 60).
Proof.
  repeat split; try reflexivity.
  intros n. unfold format_time, Py.divmod.
  rewrite int_inject_Z, Z.div_div by lia.
  reflexivity.
Qed.

(** ** Process entries *)

(** C10: the user shown for a process is "?" when the enumerated username
    is None or empty, and otherwise the first 8 characters of the username
    (all of it when shorter); the name shown is the first 20 characters of
    the process name. *)
Theorem make_entry_user_and_name : forall info : ProcInfo,
  (info_username info = None \/ info_username info = Some "" ->
   user (make_entry info) = "?")
  /\ (forall u, info_username info = Some u -> u <> "" ->
      user (make_entry info) = Py.slice_to 8 u
      /\ String.length (user (make_entry info)) = Nat.min 8 (String.length u)
      /\ exists rest, u = user (make_entry info) ++ rest)
  /\ name (make_entry info) = Py.slice_to 20 (info_name info)
  /\ String.length (name (make_entry info)) = Nat.min 20 (String.length (info_name info))
  /\ exists rest, info_name info = name (make_entry info) ++ rest.
Proof.
  intros info. unfold make_entry; cbn [user name].
  split; [|split; [|split; [|split]]].
  - intros [H | H]; rewrite H; reflexivity.
  - intros u Hu Hne. rewrite Hu.
    destruct u as [|c u]; [congruence|]. cbn [Py.truthy].
    split; [reflexivity|]. split.
    + apply slice_to_length.
    + apply slice_to_prefix.
  - reflexivity.
  - apply slice_to_length.
  - apply slice_to_prefix.
Qed.

Lemma make_entry_user_and_name_witness :
  user (make_entry (mkProcInfo 1 "init" None 0 0 0 0)) = "?"
  /\ user (make_entry (mkProcInfo 2 "bash" (Some "cameronthepiper") 0 0 0 0))
     = "cameront".
Proof.
  split.
  - apply (proj1 (make_entry_user_and_name (mkProcInfo 1 "init" None 0 0 0 0))).
    left. reflexivity.
  - apply (proj1 (proj1 (proj2 (make_entry_user_and_name
             (mkProcInfo 2 "bash" (Some "cameronthepiper") 0 0 0 0)))
             "cameronthepiper" eq_refl ltac:(discriminate))).
Defined.

(** ** The scrolling log *)

Lemma tl_skipn {A} (k : nat) (l : list A) : tl (skipn k l) = skipn (S k) l.
Proof.
  revert l. induction k as [|k IH]; intros [|x l]; simpl; auto.
Qed.

Lemma log_append_cases (l : list string) (m : string) :
  log_append l m =
  ((if (List.length l <? MAX_LOG_LINES)%nat then l else tl l) ++ [m])%list.
Proof.
  unfold log_append. rewrite length_app. simpl List.length.
  destruct (Nat.ltb_spec (List.length l) MAX_LOG_LINES) as [Hlt | Hge].
  - destruct (Nat.ltb_spec MAX_LOG_LINES (List.length l + 1)); [lia | reflexivity].
  - destruct (Nat.ltb_spec MAX_LOG_LINES (List.length l + 1)); [| lia].
    destruct l as [|x l]; [simpl in Hge; unfold MAX_LOG_LINES in Hge; lia|].
    reflexivity.
Qed.

Lemma log_is_last_lines (msgs : list string) :
  fold_left log_append msgs [] =
  skipn (List.length msgs - MAX_LOG_LINES) msgs.
Proof.
  induction msgs as [|m msgs IH] using rev_ind; [reflexivity|].
  rewrite fold_left_app. simpl fold_left. rewrite IH, log_append_cases.
  rewrite length_skipn, length_app, skipn_app. simpl List.length.
  unfold MAX_LOG_LINES.
  destruct (Nat.ltb_spec (List.length msgs - (List.length msgs - 4)) 4) as [Hlt | Hge].
  - replace (List.length msgs - 4)%nat with 0%nat by lia.
    replace (List.length msgs + 1 - 4)%nat with 0%nat by lia.
    reflexivity.
  - rewrite tl_skipn.
    replace (List.length msgs + 1 - 4)%nat with (S (List.length msgs - 4)) by lia.
    replace (S (List.length msgs - 4) - List.length msgs)%nat with 0%nat by lia.
    reflexivity.
Qed.

(** ** The process table *)

Section SortFacts.
Context {A : Type} (key : A -> Q).

Lemma insert_desc_perm (x : A) (l : list A) :
  Permutation (insert_desc key x l) (x :: l).
Proof.
  induction l as [|y l IH]; simpl; [apply Permutation_refl|].
  destruct (Py.gt (key y) (key x)); [|apply Permutation_refl].
  apply Permutation_trans with (y :: x :: l).
  - now apply perm_skip.
  - apply perm_swap.
Qed.

Lemma sort_reverse_perm (l : list A) : Permutation (sort_reverse key l) l.
Proof.
  induction l as [|x l IH]; simpl; [apply perm_nil|].
  apply Permutation_trans with (x :: sort_reverse key l).
  - apply insert_desc_perm.
  - now apply perm_skip.
Qed.

Lemma insert_desc_sorted (x : A) (l : list A) :
  StronglySorted (fun a b => key b <= key a)%Q l ->
  StronglySorted (fun a b => key b <= key a)%Q (insert_desc key x l).
Proof.
  induction l as [|y l IH]; intros Hs; simpl.
  - constructor; [constructor | constructor].
  - inversion Hs as [|? ? Hs' Hall]; subst.
    destruct (Py.gt (key y) (key x)) eqn:E.
    + constructor; [now apply IH|].
      apply (Permutation_Forall (Permutation_sym (insert_desc_perm x l))).
      constructor; [|exact Hall].
      apply gt_spec in E. now apply Qlt_le_weak.
    + apply gt_false in E. apply Qnot_lt_le in E.
      constructor; [exact Hs|].
      constructor; [exact E|].
      eapply Forall_impl; [|exact Hall].
      intros z Hz. cbv beta in *. now apply Qle_trans with (key y).
Qed.

Lemma sort_reverse_sorted (l : list A) :
  StronglySorted (fun a b => key b <= key a)%Q (sort_reverse key l).
Proof.
  induction l as [|x l IH]; simpl; [constructor|].
  now apply insert_desc_sorted.
Qed.

Lemma insert_desc_stable (c : Q) (x : A) (l : list A) :
  filter (fun p => Qeq_bool (key p) c) (insert_desc key x l) =
  filter (fun p => Qeq_bool (key p) c) (x :: l).
Proof.
  induction l as [|y l IH]; [reflexivity|].
  simpl insert_desc. destruct (Py.gt (key y) (key x)) eqn:E; [|reflexivity].
  cbn [filter] in *. rewrite IH.
  destruct (Qeq_bool (key x) c) eqn:Ex, (Qeq_bool (key y) c) eqn:Ey;
    try reflexivity.
  apply Qeq_bool_iff in Ex, Ey. apply gt_spec in E.
  rewrite Ex, Ey in E. exfalso. exact (Qlt_irrefl _ E).
Qed.

Lemma sort_reverse_stable (c : Q) (l : list A) :
  filter (fun p => Qeq_bool (key p) c) (sort_reverse key l) =
  filter (fun p => Qeq_bool (key p) c) l.
Proof.
  induction l as [|x l IH]; [reflexivity|].
  simpl sort_reverse. rewrite insert_desc_stable.
  cbn [filter]. now rewrite IH.
Qed.

End SortFacts.

Lemma StronglySorted_firstn {A} (R : A -> A -> Prop) (n : nat) (l : list A) :
  StronglySorted R l -> StronglySorted R (firstn n l).
Proof.
  revert l. induction n as [|n IH]; intros l Hs; [constructor|].
  destruct l as [|x l]; [constructor|].
  inversion Hs; subst. simpl. constructor; [now apply IH|].
  apply Forall_forall. intros y Hy.
  assert (Hin : In y l).
  { rewrite <- (firstn_skipn n l). apply in_or_app. now left. }
  match goal with H : Forall (R x) l |- _ => rewrite Forall_forall in H; now apply H end.
Qed.

(** ** Running effectful code *)

Lemma add_events_nil (w : World) : add_events w [] = w.
Proof. destruct w. unfold add_events. simpl. now rewrite app_nil_r. Qed.

Lemma add_events_app (w : World) (a b : list Event) :
  add_events (add_events w a) b = add_events w (a ++ b).
Proof. unfold add_events. simpl. now rewrite app_assoc. Qed.

Lemma emit_run (e : Event) (w : World) : emit e w = inr (tt, add_events w [e]).
Proof. reflexivity. Qed.

Lemma bind_run {A B} (m : M A) (k : A -> M B) (w w' : World) (a : A) :
  m w = inr (a, w') -> bind m k w = k a w'.
Proof. intros H. unfold bind. now rewrite H. Qed.

Lemma bind_fail {A B} (m : M A) (k : A -> M B) (w : World) (e : PyError) :
  m w = inl e -> bind m k w = inl e.
Proof. intros H. unfold bind. now rewrite H. Qed.

Lemma for_enumerate_run {A} (write : nat -> A -> Event) (l : list A) :
  forall (i : nat) (w : World),
    for_enumerate (fun i x => emit (write i x)) i l w =
    inr (tt, add_events w (enumerate_events write i l)).
Proof.
  induction l as [|x l IH]; intros i w; simpl.
  - unfold ret. now rewrite add_events_nil.
  - rewrite (bind_run _ _ _ _ _ (emit_run _ _)), IH, add_events_app.
    reflexivity.
Qed.

Lemma draw_parts_run (parts : list (string * Attr)) :
  forall (row x : Z) (w : World),
    draw_parts row x parts w = inr (tt, add_events w (parts_events row x parts)).
Proof.
  induction parts as [|[text color] parts IH]; intros row x w; simpl.
  - unfold ret. now rewrite add_events_nil.
  - unfold addstr. rewrite (bind_run _ _ _ _ _ (emit_run _ _)), IH, add_events_app.
    reflexivity.
Qed.

Lemma draw_table_run (fmt_f : nat -> nat -> Q -> string) (rows : list ProcEntry)
    (w : World) :
  draw_table fmt_f rows w = inr (tt, add_events w (rows_events fmt_f 0 rows)).
Proof.
  unfold draw_table. generalize 0%nat. revert w.
  induction rows as [|p rows IH]; intros w i; cbn [for_enumerate rows_events].
  - unfold ret. now rewrite add_events_nil.
  - rewrite (bind_run _ _ _ _ _ (draw_parts_run _ _ _ _)), IH, add_events_app.
    reflexivity.
Qed.

Lemma draw_log_run (lines : list string) (w : World) :
  draw_log lines w = inr (tt, add_events w (log_events lines)).
Proof. unfold draw_log, log_events, addstr. apply for_enumerate_run. Qed.

(** ** The random generator *)

Lemma randint_run (a b : Z) (w : World) :
  a <= b ->
  Random.randint a b w =
  inr (a + Z.of_N (tape w (cursor w)) mod (b - a + 1),
       mkWorld (tape w) (S (cursor w)) (trace w)).
Proof.
  intros H. unfold Random.randint.
  destruct (Z.ltb_spec b a); [lia | reflexivity].
Qed.

Lemma randint_range (a b : Z) (r : N) :
  a <= b -> a <= a + Z.of_N r mod (b - a + 1) <= b.
Proof.
  intros H. pose proof (Z.mod_pos_bound (Z.of_N r) (b - a + 1)). lia.
Qed.

Lemma choice_run (s : string) (c0 : ascii) (w : World) :
  String.get 0 s = Some c0 ->
  exists c, Random.choice s w =
            inr (c, mkWorld (tape w) (S (cursor w)) (trace w)).
Proof.
  intros H. unfold Random.choice. rewrite H.
  unfold bind, Random.next.
  destruct (String.get (N.to_nat (tape w (cursor w)) mod String.length s) s);
    eexists; reflexivity.
Qed.

Lemma choice_glitch_chars_run (w : World) :
  exists c, Random.choice GLITCH_CHARS w =
            inr (c, mkWorld (tape w) (S (cursor w)) (trace w)).
Proof. apply (choice_run GLITCH_CHARS "!"). reflexivity. Qed.

Lemma setitem_in_range {A} (l : list A) (pos : nat) (c : A) :
  (pos < List.length l)%nat ->
  exists l', setitem l pos c = inr l' /\ List.length l' = List.length l.
Proof.
  revert pos. induction l as [|x l IH]; intros pos H; simpl in H; [lia|].
  destruct pos as [|pos]; simpl.
  - eexists; split; reflexivity.
  - destruct (IH pos) as [l' [Hl' Hlen]]; [lia|].
    rewrite Hl'. eexists; split; [reflexivity|]. simpl. now rewrite Hlen.
Qed.

(** ** The glitch animation *)

(** On an empty buffer the first pick of a position fails. *)
Lemma corrupt_empty (k : nat) (w : World) : corrupt (S k) [] w = inl ValueError.
Proof. reflexivity. Qed.

(** On a non-empty buffer every pick is in range: [n] replacements go
    through, two generator readings each, and nothing is drawn. *)
Lemma corrupt_nonempty (n : nat) :
  forall (l : list ascii) (w : World),
    l <> [] ->
    exists l', corrupt n l w =
               inr (l', mkWorld (tape w) (cursor w + 2 * n) (trace w))
               /\ List.length l' = List.length l.
Proof.
  induction n as [|n IH]; intros l w Hne.
  - exists l. simpl. unfold ret. split; [|reflexivity].
    destruct w; simpl. now rewrite Nat.add_0_r.
  - destruct l as [|a l]; [congruence|].
    cbn [corrupt]. unfold Random.randrange. cbn [List.length].
    set (len := S (List.length l)).
    set (pos := (N.to_nat (tape w (cursor w)) mod len)%nat).
    assert (Hpos : (pos < len)%nat) by (apply Nat.mod_upper_bound; discriminate).
    destruct (choice_glitch_chars_run (mkWorld (tape w) (S (cursor w)) (trace w)))
      as [c Hc].
    destruct (setitem_in_range (a :: l) pos c Hpos) as [l' [Hset Hlen]].
    assert (Hne' : l' <> []).
    { intros ->. simpl in Hlen. discriminate. }
    destruct (IH l' (mkWorld (tape w) (S (S (cursor w))) (trace w)) Hne')
      as [l'' [Hrun Hlen'']].
    exists l''. split; [|rewrite Hlen''; exact Hlen].
    unfold bind at 1. unfold bind at 1. unfold Random.next, ret.
    fold pos. unfold bind at 1. rewrite Hc.
    unfold bind at 1. rewrite Hset. simpl lift. unfold ret.
    rewrite Hrun. simpl. do 3 f_equal. lia.
Qed.

Lemma list_ascii_nonempty (s : string) : s <> "" -> list_ascii_of_string s <> [].
Proof. destruct s; [congruence | discriminate]. Qed.

(** A frame on an empty text raises as soon as its count is positive. *)
Lemma glitch_frame_empty (color : Attr) (row x min_chars max_chars : Z)
    (frame_delay : Q) (w : World) :
  1 <= min_chars <= max_chars ->
  glitch_frame "" color row x min_chars max_chars frame_delay w = inl ValueError.
Proof.
  intros H. unfold glitch_frame.
  assert (Hle : min_chars <= max_chars) by lia.
  rewrite (bind_run _ _ _ _ _ (randint_run _ _ w Hle)).
  pose proof (randint_range min_chars max_chars (tape w (cursor w)) Hle) as Hr.
  destruct (Z.to_nat _) eqn:E; [lia|].
  reflexivity.
Qed.

(** A frame on a non-empty text succeeds and draws one string as long as
    the text. *)
Lemma glitch_frame_nonempty (text : string) (color : Attr)
    (row x min_chars max_chars : Z) (frame_delay : Q) (w : World) :
  text <> "" -> min_chars <= max_chars ->
  exists shown w',
    glitch_frame text color row x min_chars max_chars frame_delay w = inr (tt, w')
    /\ tape w' = tape w
    /\ trace w' = (trace w ++ frame_events shown color row x frame_delay)%list.
Proof.
  intros Hne Hle. unfold glitch_frame.
  rewrite (bind_run _ _ _ _ _ (randint_run _ _ w Hle)).
  destruct (corrupt_nonempty
              (Z.to_nat (min_chars + Z.of_N (tape w (cursor w)) mod (max_chars - min_chars + 1)))
              (list_ascii_of_string text)
              (mkWorld (tape w) (S (cursor w)) (trace w))
              (list_ascii_nonempty text Hne)) as [l' [Hrun _]].
  rewrite (bind_run _ _ _ _ _ Hrun).
  eexists; eexists. split; [reflexivity|].
  split; [reflexivity|]. simpl. rewrite <- !app_assoc. reflexivity.
Qed.

Lemma glitch_frames_empty (k : nat) (color : Attr) (row x min_chars max_chars : Z)
    (frame_delay : Q) (w : World) :
  1 <= min_chars <= max_chars ->
  glitch_frames (S k) "" color row x min_chars max_chars frame_delay w
  = inl ValueError.
Proof.
  intros H. cbn [glitch_frames]. apply bind_fail. now apply glitch_frame_empty.
Qed.

Lemma glitch_frames_nonempty (n : nat) (text : string) (color : Attr)
    (row x min_chars max_chars : Z) (frame_delay : Q) :
  text <> "" -> min_chars <= max_chars ->
  forall w, exists evs w',
    glitch_frames n text color row x min_chars max_chars frame_delay w = inr (tt, w')
    /\ tape w' = tape w
    /\ trace w' = (trace w ++ evs)%list
    /\ List.length evs = (3 * n)%nat.
Proof.
  intros Hne Hle. induction n as [|n IH]; intros w.
  - exists [], w. simpl. rewrite app_nil_r. auto.
  - destruct (glitch_frame_nonempty text color row x min_chars max_chars
                frame_delay w Hne Hle) as [shown [w1 [H1 [Ht1 Htr1]]]].
    destruct (IH w1) as [evs [w2 [H2 [Ht2 [Htr2 Hlen]]]]].
    exists (frame_events shown color row x frame_delay ++ evs)%list, w2.
    cbn [glitch_frames]. rewrite (bind_run _ _ _ _ _ H1).
    split; [exact H2|]. split; [congruence|]. split.
    + rewrite Htr2, Htr1, app_assoc. reflexivity.
    + rewrite length_app. simpl. lia.
Qed.

(** With a zero count a frame redraws the text as it is. *)
Lemma glitch_frame_zero (text : string) (color : Attr) (row x : Z)
    (frame_delay : Q) (w : World) :
  glitch_frame text color row x 0 0 frame_delay w =
  inr (tt, mkWorld (tape w) (S (cursor w))
             (trace w ++ frame_events text color row x frame_delay)).
Proof.
  unfold glitch_frame.
  rewrite (bind_run _ _ _ _ _ (randint_run 0 0 w (Z.le_refl 0))).
  replace (0 + Z.of_N (tape w (cursor w)) mod (0 - 0 + 1)) with 0
    by (simpl; now rewrite Z.mod_1_r).
  simpl corrupt. unfold bind at 1, ret at 1.
  rewrite string_of_list_ascii_of_string, ljust_own_length.
  unfold addstr, refresh, sleep, bind, emit, frame_events. simpl.
  rewrite <- !app_assoc. reflexivity.
Qed.

Lemma glitch_frames_zero (n : nat) (text : string) (color : Attr) (row x : Z)
    (frame_delay : Q) :
  forall w,
    glitch_frames n text color row x 0 0 frame_delay w =
    inr (tt, mkWorld (tape w) (cursor w + n)
               (trace w ++ clean_frames n text color row x frame_delay)).
Proof.
  induction n as [|n IH]; intros w.
  - simpl. unfold ret. destruct w; simpl. now rewrite Nat.add_0_r, app_nil_r.
  - cbn [glitch_frames clean_frames].
    rewrite (bind_run _ _ _ _ _ (glitch_frame_zero _ _ _ _ _ _)), IH.
    simpl. rewrite <- app_assoc. do 3 f_equal. lia.
Qed.

(** The animation of a non-empty text goes through. *)
Lemma glitch_line_nonempty (text : string) (color : Attr)
    (row x min_chars max_chars min_frames max_frames : Z) (frame_delay : Q)
    (w : World) :
  text <> "" -> min_chars <= max_chars -> min_frames <= max_frames ->
  exists evs w',
    glitch_line text color row x min_chars max_chars min_frames max_frames
      frame_delay w = inr (tt, w')
    /\ tape w' = tape w
    /\ trace w' = (trace w ++ evs)%list
    /\ (3 * Z.to_nat min_frames <= List.length evs <= 3 * Z.to_nat max_frames)%nat.
Proof.
  intros Hne Hc Hf. unfold glitch_line.
  rewrite (bind_run _ _ _ _ _ (randint_run _ _ w Hf)).
  pose proof (randint_range min_frames max_frames (tape w (cursor w)) Hf) as Hr.
  destruct (glitch_frames_nonempty
              (Z.to_nat (min_frames + Z.of_N (tape w (cursor w)) mod (max_frames - min_frames + 1)))
              text color row x min_chars max_chars frame_delay Hne Hc
              (mkWorld (tape w) (S (cursor w)) (trace w)))
    as [evs [w' [Hrun [Ht [Htr Hlen]]]]].
  exists evs, w'. split; [exact Hrun|]. split; [exact Ht|]. split; [exact Htr|].
  rewrite Hlen. lia.
Qed.

Lemma clean_frames_show_text (n : nat) (text : string) (color : Attr)
    (row x : Z) (frame_delay : Q) :
  Forall (fun e => match e with
                   | Addstr _ _ shown _ => shown = text
                   | _ => True
                   end)
         (clean_frames n text color row x frame_delay)
  /\ List.length (clean_frames n text color row x frame_delay) = (3 * n)%nat.
Proof.
  induction n as [|n [IH1 IH2]]; simpl; [split; [constructor | reflexivity]|].
  split.
  - repeat (constructor; [exact I || reflexivity|]). exact IH1.
  - rewrite IH2. lia.
Qed.

(** C9: with [min_chars = max_chars = 0] the call is accepted and every
    frame it draws shows the text unchanged; the number of frames is the
    one drawn in [min_frames..max_frames].  This holds for every text, the
    non-empty ones in particular. *)
Theorem glitch_line_zero_chars :
  forall (text : string) (color : Attr) (row x min_frames max_frames : Z)
         (frame_delay : Q) (w : World),
    min_frames <= max_frames ->
    exists n : Z,
      min_frames <= n <= max_frames
      /\ glitch_line text color row x 0 0 min_frames max_frames frame_delay w =
         inr (tt, mkWorld (tape w) (S (cursor w) + Z.to_nat n)
                    (trace w ++ clean_frames (Z.to_nat n) text color row x frame_delay))
      /\ Forall (fun e => match e with
                          | Addstr _ _ shown _ => shown = text
                          | _ => True
                          end)
                (clean_frames (Z.to_nat n) text color row x frame_delay).
Proof.
  intros text color row x min_frames max_frames frame_delay w Hf.
  exists (min_frames + Z.of_N (tape w (cursor w)) mod (max_frames - min_frames + 1)).
  split; [now apply randint_range|]. split.
  - unfold glitch_line.
    rewrite (bind_run _ _ _ _ _ (randint_run _ _ w Hf)).
    apply glitch_frames_zero.
  - apply clean_frames_show_text.
Qed.

Lemma glitch_line_zero_chars_witness :
  exists n : Z,
    3 <= n <= 6
    /\ glitch_line "HELLO" (color_pair 4) 9 4 0 0 3 6 FRAME_DELAY zero_world =
       inr (tt, mkWorld (tape zero_world) (S (cursor zero_world) + Z.to_nat n)
                  (trace zero_world
                   ++ clean_frames (Z.to_nat n) "HELLO" (color_pair 4) 9 4 FRAME_DELAY))
    /\ Forall (fun e => match e with
                        | Addstr _ _ shown _ => shown = "HELLO"
                        | _ => True
                        end)
              (clean_frames (Z.to_nat n) "HELLO" (color_pair 4) 9 4 FRAME_DELAY).
Proof.
  apply (glitch_line_zero_chars "HELLO" (color_pair 4) 9 4 3 6 FRAME_DELAY zero_world).
  lia.
Defined.

(** A frame on the empty text: it raises when its count is positive, and
    otherwise draws the empty text and reads the generator once. *)
Lemma glitch_frame_empty_text (color : Attr) (row x min_chars max_chars : Z)
    (frame_delay : Q) (w : World) :
  min_chars <= max_chars ->
  let count := min_chars + Z.of_N (tape w (cursor w)) mod (max_chars - min_chars + 1) in
  (1 <= count ->
   glitch_frame "" color row x min_chars max_chars frame_delay w = inl ValueError)
  /\ (count <= 0 ->
      glitch_frame "" color row x min_chars max_chars frame_delay w =
      inr (tt, mkWorld (tape w) (S (cursor w))
                 (trace w ++ frame_events "" color row x frame_delay))).
Proof.
  intros Hle count. unfold glitch_frame.
  rewrite (bind_run _ _ _ _ _ (randint_run _ _ w Hle)). fold count.
  split; intros Hc.
  - destruct (Z.to_nat count) eqn:E; [lia | reflexivity].
  - replace (Z.to_nat count) with 0%nat by lia.
    unfold corrupt, bind, ret, addstr, refresh, sleep, emit, frame_events.
    cbn. rewrite <- !app_assoc. reflexivity.
Qed.

Lemma glitch_frames_empty_text (color : Attr) (row x min_chars max_chars : Z)
    (frame_delay : Q) (n : nat) :
  min_chars <= max_chars ->
  forall w,
    ((exists k, (k < n)%nat
                /\ 1 <= min_chars + Z.of_N (tape w (cursor w + k))
                                    mod (max_chars - min_chars + 1)) ->
     glitch_frames n "" color row x min_chars max_chars frame_delay w
     = inl ValueError)
    /\ ((forall k, (k < n)%nat ->
                   min_chars + Z.of_N (tape w (cursor w + k))
                               mod (max_chars - min_chars + 1) <= 0) ->
        glitch_frames n "" color row x min_chars max_chars frame_delay w =
        inr (tt, mkWorld (tape w) (cursor w + n)
                   (trace w ++ clean_frames n "" color row x frame_delay))).
Proof.
  intros Hle. induction n as [|n IH]; intros w.
  - split.
    + intros [k [Hk _]]. lia.
    + intros _. simpl. unfold ret. destruct w; simpl.
      now rewrite Nat.add_0_r, app_nil_r.
  - destruct (glitch_frame_empty_text color row x min_chars max_chars
                frame_delay w Hle) as [Hpos Hzero].
    cbv zeta in Hpos, Hzero.
    set (w1 := mkWorld (tape w) (S (cursor w))
                 (trace w ++ frame_events "" color row x frame_delay)).
    destruct (IH w1) as [IHfail IHok].
    assert (Hshift : forall k, (cursor w1 + k = cursor w + S k)%nat)
      by (intros k; simpl; lia).
    cbn [glitch_frames].
    destruct (Z_lt_le_dec 0 (min_chars + Z.of_N (tape w (cursor w))
                                          mod (max_chars - min_chars + 1)))
      as [Hgt | Hnot].
    + split.
      * intros _. apply bind_fail. apply Hpos. lia.
      * intros Hall. specialize (Hall 0%nat ltac:(lia)).
        rewrite Nat.add_0_r in Hall. lia.
    + rewrite (bind_run _ _ _ _ _ (Hzero Hnot)). fold w1. split.
      * intros [k [Hk Hc]]. apply IHfail.
        destruct k as [|k].
        { rewrite Nat.add_0_r in Hc. lia. }
        exists k. split; [lia|]. rewrite Hshift. exact Hc.
      * intros Hall. rewrite IHok.
        { simpl. rewrite <- app_assoc. do 3 f_equal. lia. }
        intros k Hk. rewrite Hshift. apply Hall. lia.
Qed.

(** C2, as the code has it: [glitch_line] has no guard for an empty text,
    and picking a position in it raises ValueError.  With the default
    parameters every call on the empty text raises.  With non-empty ranges
    in general, the call raises ValueError when some frame it draws has a
    count of at least 1; when every frame's count is 0, and the delay is
    not negative, nothing is replaced and nothing is raised, each frame
    showing the empty text. *)
Theorem glitch_line_empty_text :
  forall (color : Attr) (row : Z) (w : World),
    glitch_line_default "" color row w = inl ValueError
    /\ forall (x min_chars max_chars min_frames max_frames : Z) (frame_delay : Q),
         min_frames <= max_frames -> min_chars <= max_chars ->
         let n := drawn_frames min_frames max_frames w in
         ((exists k, (k < n)%nat /\ 1 <= drawn_chars min_chars max_chars w k) ->
          glitch_line "" color row x min_chars max_chars min_frames max_frames
            frame_delay w = inl ValueError)
         /\ ((0 <= frame_delay)%Q ->
             (forall k, (k < n)%nat -> drawn_chars min_chars max_chars w k <= 0) ->
             glitch_line "" color row x min_chars max_chars min_frames max_frames
               frame_delay w =
             inr (tt, mkWorld (tape w) (cursor w + 1 + n)
                        (trace w ++ clean_frames n "" color row x frame_delay))).
Proof.
  intros color row w.
  assert (Hgen : forall (x min_chars max_chars min_frames max_frames : Z)
                        (frame_delay : Q),
             min_frames <= max_frames -> min_chars <= max_chars ->
             let n := drawn_frames min_frames max_frames w in
             ((exists k, (k < n)%nat /\ 1 <= drawn_chars min_chars max_chars w k) ->
              glitch_line "" color row x min_chars max_chars min_frames max_frames
                frame_delay w = inl ValueError)
             /\ ((forall k, (k < n)%nat -> drawn_chars min_chars max_chars w k <= 0) ->
                 glitch_line "" color row x min_chars max_chars min_frames max_frames
                   frame_delay w =
                 inr (tt, mkWorld (tape w) (cursor w + 1 + n)
                            (trace w ++ clean_frames n "" color row x frame_delay)))).
  { intros x min_chars max_chars min_frames max_frames frame_delay Hf Hc n.
    unfold glitch_line.
    rewrite (bind_run _ _ _ _ _ (randint_run _ _ w Hf)).
    fold (drawn_frames min_frames max_frames w). fold n.
    destruct (glitch_frames_empty_text color row x min_chars max_chars
                frame_delay n Hc (mkWorld (tape w) (S (cursor w)) (trace w)))
      as [Hfail Hok].
    cbn [tape cursor trace] in Hfail, Hok.
    assert (Hpos : forall k, (S (cursor w) + k = cursor w + 1 + k)%nat)
      by (intros; lia).
    unfold drawn_chars. split.
    - intros [k [Hk Hcount]]. apply Hfail. exists k. split; [exact Hk|].
      now rewrite Hpos.
    - intros Hall. rewrite Hok.
      + do 3 f_equal. lia.
      + intros k Hk. rewrite Hpos. now apply Hall. }
  split.
  2:{ intros x min_chars max_chars min_frames max_frames frame_delay Hf Hc n.
      destruct (Hgen x min_chars max_chars min_frames max_frames frame_delay Hf Hc)
        as [Hfail Hok].
      split; [exact Hfail | intros _; exact Hok]. }
  unfold glitch_line_default.
  apply (Hgen 4 MIN_GLITCH_CHARS MAX_GLITCH_CHARS MIN_FRAMES MAX_FRAMES FRAME_DELAY);
    try discriminate.
  exists 0%nat. unfold drawn_frames, drawn_chars, MIN_FRAMES, MAX_FRAMES,
                  MIN_GLITCH_CHARS, MAX_GLITCH_CHARS.
  split.
  - pose proof (Z.mod_pos_bound (Z.of_N (tape w (cursor w))) (6 - 3 + 1)). lia.
  - pose proof (Z.mod_pos_bound (Z.of_N (tape w (cursor w + 1 + 0))) (6 - 1 + 1)). lia.
Qed.

Lemma glitch_line_empty_text_witness :
  glitch_line "" (color_pair 4) 9 4 0 1 3 6 FRAME_DELAY (mkWorld (tape_at 2 1) 0 [])
    = inl ValueError
  /\ glitch_line "" (color_pair 4) 9 4 0 1 3 6 FRAME_DELAY zero_world
     = inr (tt, mkWorld (tape zero_world) (cursor zero_world + 1 + 3)
                  (trace zero_world
                   ++ clean_frames 3 "" (color_pair 4) 9 4 FRAME_DELAY)).
Proof.
  split.
  - apply (proj1 (proj2 (glitch_line_empty_text (color_pair 4) 9
                            (mkWorld (tape_at 2 1) 0 []))
                    4 0 1 3 6 FRAME_DELAY ltac:(lia) ltac:(lia))).
    exists 1%nat. split; [vm_compute; lia | vm_compute; discriminate].
  - apply (proj2 (proj2 (glitch_line_empty_text (color_pair 4) 9 zero_world)
                    4 0 1 3 6 FRAME_DELAY ltac:(lia) ltac:(lia))).
    + vm_compute. discriminate.
    + intros k _. vm_compute. discriminate.
Defined.

(** C2 does not hold as worded: the default call on the empty text raises
    ValueError instead of returning. *)
Lemma glitch_line_empty_text_raises :
  glitch_line_default "" (color_pair 4) status_row zero_world = inl ValueError
  /\ ~ exists w', glitch_line_default "" (color_pair 4) status_row zero_world
                  = inr (tt, w').
Proof.
  assert (H : glitch_line_default "" (color_pair 4) status_row zero_world
              = inl ValueError) by reflexivity.
  split; [exact H|]. intros [w' Hw']. rewrite H in Hw'. discriminate.
Qed.

(** ** One iteration of the loop *)

Lemma system_lines_length (fmt_f : nat -> nat -> Q -> string) (cpu mem load : Q)
    (uptime : string) :
  Z.of_nat (List.length (system_lines fmt_f cpu mem load uptime))
  = system_lines_count.
Proof. reflexivity. Qed.

Lemma unit_fraction_range (r : N) :
  (0 <= Random.unit_fraction r /\ Random.unit_fraction r < 1)%Q.
Proof.
  unfold Random.unit_fraction, Qle, Qlt. cbn [Qnum Qden].
  pose proof (N.mod_upper_bound r (2 ^ 53) ltac:(discriminate)) as H.
  assert (H' : Z.of_N (r mod 2 ^ 53) < Z.pos (2 ^ 53)).
  { change (Z.pos (2 ^ 53)) with (Z.of_N (2 ^ 53)). now apply N2Z.inj_lt. }
  pose proof (N2Z.is_nonneg (r mod 2 ^ 53)) as H0.
  clear H. revert H' H0.
  generalize (Z.of_N (r mod 2 ^ 53)), (Z.pos (2 ^ 53)). intros k d. lia.
Qed.

Lemma wait_of_range (r : N) : (MIN_WAIT <= wait_of r /\ wait_of r < MAX_WAIT)%Q.
Proof.
  destruct (unit_fraction_range r) as [H0 H1].
  unfold wait_of, MIN_WAIT, MAX_WAIT.
  set (u := Random.unit_fraction r) in *.
  split.
  - rewrite <- (Qplus_0_r (3 # 1)) at 1.
    apply Qplus_le_r. apply Qmult_le_0_compat; [discriminate | exact H0].
  - setoid_replace (8 # 1)%Q with ((3 # 1) + ((8 # 1) - (3 # 1)) * 1)%Q
      by reflexivity.
    apply Qplus_lt_r. apply Qmult_lt_l; [reflexivity | exact H1].
Qed.

Lemma status_line_nonempty (s : string) : STATUS_LINE s <> "".
Proof. discriminate. Qed.

Lemma uniform_wait_run (w : World) :
  Random.uniform MIN_WAIT MAX_WAIT w =
  inr (wait_of (tape w (cursor w)), mkWorld (tape w) (S (cursor w)) (trace w)).
Proof. reflexivity. Qed.

(** The status line of an iteration: one wait is read from the generator,
    and it alone decides between the plain redraw and the animation. *)
Lemma status_line_step_run (env : TickEnv) (last : Q) (w : World) :
  (Py.gt (time_check env - last)%Q (wait_of (tape w (cursor w))) = false ->
   status_line_step env last w =
   inr (last, mkWorld (tape w) (S (cursor w)) (trace w ++ [status_redraw env])))
  /\ (Py.gt (time_check env - last)%Q (wait_of (tape w (cursor w))) = true ->
      exists frames w',
        status_line_step env last w = inr (time_after_glitch env, w')
        /\ tape w' = tape w
        /\ trace w' = (trace w ++ frames ++ [status_redraw env])%list
        /\ (9 <= List.length frames <= 18)%nat).
Proof.
  unfold status_line_step.
  rewrite (bind_run _ _ _ _ _ (uniform_wait_run w)).
  split; intros E; rewrite E.
  - reflexivity.
  - unfold glitch_line_default.
    destruct (glitch_line_nonempty
                (STATUS_LINE (get_system_status (cpu_percent env) (virtual_memory_percent env)))
                (status_color (get_system_status (cpu_percent env) (virtual_memory_percent env)))
                status_row 4 MIN_GLITCH_CHARS MAX_GLITCH_CHARS MIN_FRAMES MAX_FRAMES
                FRAME_DELAY (mkWorld (tape w) (S (cursor w)) (trace w))
                (status_line_nonempty _) ltac:(discriminate) ltac:(discriminate))
      as [frames [w' [Hrun [Ht [Htr Hlen]]]]].
    exists frames, (add_events w' [status_redraw env]).
    unfold bind at 1. unfold bind at 1. rewrite Hrun.
    split; [reflexivity|]. split; [exact Ht|]. split.
    + simpl. rewrite Htr. simpl. now rewrite <- app_assoc.
    + exact Hlen.
Qed.

Lemma generate_device_id_run (w : World) :
  exists live_feed,
    generate_device_id w =
    inr (live_feed, mkWorld (tape w) (cursor w + 3) (trace w)).
Proof.
  unfold generate_device_id.
  eexists.
  rewrite (bind_run _ _ _ _ _ (randint_run 10000 99999 w ltac:(discriminate))).
  rewrite (bind_run _ _ _ _ _ (randint_run 10000 99999 _ ltac:(discriminate))).
  rewrite (bind_run _ _ _ _ _ (randint_run 100000000000 999999999999 _ ltac:(discriminate))).
  unfold ret. cbn [tape cursor trace].
  replace (cursor w + 3)%nat with (S (S (S (cursor w)))) by lia.
  reflexivity.
Qed.

Lemma tick_head_run (env : TickEnv) (last : Q) (w : World) :
  exists live_feed,
    tick_head env last w =
    status_line_step env last
      (mkWorld (tape w) (cursor w + 3)
         (trace w ++ [Addstr live_feed_row 4 ("HANDSHAKE ID: " ++ live_feed)
                             (color_pair 6)])).
Proof.
  destruct (generate_device_id_run w) as [live_feed H].
  exists live_feed. unfold tick_head.
  rewrite (bind_run _ _ _ _ _ H). reflexivity.
Qed.

(** An iteration that does not break is its head, the collection of the
    processes, and a fixed sequence of screen writes. *)
Lemma tick_run (fmt_f : nat -> nat -> Q -> string) (env : TickEnv)
    (st : LoopState) (w : World) :
  key_poll env = inr false ->
  tick fmt_f env st w =
  match tick_head env (last_status_glitch_time st) w with
  | inl e => inl e
  | inr (last, w1) =>
      match process_loop (process_iter env) [] with
      | inl e => inl e
      | inr processes =>
          inr (Some (mkLoopState last
                       (log_append (log_lines st) (log_message fmt_f env))),
               add_events w1 (tick_tail_events fmt_f env processes (log_lines st)))
      end
  end.
Proof.
  intros Hq. unfold tick. rewrite Hq. cbn [lift]. unfold bind at 1, ret at 1.
  destruct (generate_device_id_run w) as [live_feed H].
  assert (Hhead : tick_head env (last_status_glitch_time st) w =
                  status_line_step env (last_status_glitch_time st)
                    (add_events (mkWorld (tape w) (cursor w + 3) (trace w))
                       [Addstr live_feed_row 4 ("HANDSHAKE ID: " ++ live_feed)
                               (color_pair 6)])).
  { unfold tick_head. rewrite (bind_run _ _ _ _ _ H). reflexivity. }
  rewrite Hhead. clear Hhead.
  rewrite (bind_run _ _ _ _ _ H).
  unfold addstr at 1.
  rewrite (bind_run _ _ _ _ _ (emit_run _ _)).
  unfold bind at 1.
  destruct (status_line_step env (last_status_glitch_time st) _) as [e | [last w1]];
    [reflexivity|].
  unfold draw_overview, addstr at 1.
  rewrite (bind_run _ _ _ _ _ (for_enumerate_run _ _ _ _)).
  unfold bind at 1.
  destruct (process_loop (process_iter env) []) as [e | processes];
    [reflexivity|].
  cbn [lift]. unfold ret at 1.
  unfold addstr at 1. rewrite (bind_run _ _ _ _ _ (emit_run _ _)).
  rewrite (bind_run _ _ _ _ _ (draw_table_run _ _ _)).
  unfold addstr at 1. rewrite (bind_run _ _ _ _ _ (emit_run _ _)).
  unfold log_step.
  unfold bind at 1. unfold bind at 1. rewrite draw_log_run. unfold ret at 1.
  unfold refresh, sleep.
  rewrite (bind_run _ _ _ _ _ (emit_run _ _)).
  rewrite (bind_run _ _ _ _ _ (emit_run _ _)).
  unfold ret, tick_tail_events.
  rewrite !add_events_app. reflexivity.
Qed.

Lemma tick_some_not_quit (fmt_f : nat -> nat -> Q -> string) (env : TickEnv)
    (st st' : LoopState) (w w' : World) :
  tick fmt_f env st w = inr (Some st', w') ->
  key_poll env = inr false.
Proof.
  intros H. unfold tick in H.
  destruct (key_poll env) as [e | [|]]; [discriminate | discriminate | reflexivity].
Qed.

(** ** The glitch schedule *)

(** C1, as the code has it: the loop keeps [last_status_glitch_time] and no
    pending wait.  Every iteration reads a fresh wait of
    [MIN_WAIT, MAX_WAIT) from the generator and compares the elapsed time
    with it: if the elapsed time does not exceed this wait the status line
    is only redrawn and [last_status_glitch_time] stays as it was; if it
    does, the animation runs (3 to 6 frames) and
    [last_status_glitch_time] becomes the clock reading taken after it. *)
Theorem glitch_wait_drawn_every_tick : forall (env : TickEnv) (w : World),
  (forall last : Q,
     let wait := wait_of (tape w (cursor w)) in
     let elapsed := (time_check env - last)%Q in
     (MIN_WAIT <= wait /\ wait < MAX_WAIT)%Q
     /\ (~ (wait < elapsed)%Q ->
         status_line_step env last w =
         inr (last, mkWorld (tape w) (S (cursor w)) (trace w ++ [status_redraw env])))
     /\ ((wait < elapsed)%Q ->
         exists frames w',
           status_line_step env last w = inr (time_after_glitch env, w')
           /\ tape w' = tape w
           /\ trace w' = (trace w ++ frames ++ [status_redraw env])%list
           /\ (9 <= List.length frames <= 18)%nat))
  /\ (forall fmt_f st st' w',
        tick fmt_f env st w = inr (Some st', w') ->
        last_status_glitch_time st' =
        if Py.gt (time_check env - last_status_glitch_time st)%Q
                 (wait_of (tape w (cursor w + 3)))
        then time_after_glitch env
        else last_status_glitch_time st).
Proof.
  intros env w. split.
  - intros last wait elapsed.
    destruct (status_line_step_run env last w) as [Hno Hyes].
    split; [apply wait_of_range|]. split.
    + intros H. apply Hno. now apply gt_false.
    + intros H. apply Hyes. now apply gt_spec.
  - intros fmt_f st st' w' Htick.
    rewrite (tick_run fmt_f env st w (tick_some_not_quit _ _ _ _ _ _ Htick)) in Htick.
    destruct (tick_head_run env (last_status_glitch_time st) w) as [live_feed Hhead].
    rewrite Hhead in Htick.
    match type of Htick with
    | context [status_line_step env ?l ?w0] =>
        destruct (status_line_step_run env l w0) as [Hno Hyes]
    end.
    cbn [tape cursor] in Hno, Hyes.
    destruct (Py.gt _ _) eqn:E.
    + destruct (Hyes eq_refl) as [frames [w1 [Hrun _]]].
      rewrite Hrun in Htick.
      destruct (process_loop _ _); [discriminate|].
      injection Htick as Hst _. now rewrite <- Hst.
    + rewrite (Hno eq_refl) in Htick.
      destruct (process_loop _ _); [discriminate|].
      injection Htick as Hst _. now rewrite <- Hst.
Qed.

Lemma glitch_wait_drawn_every_tick_witness :
  status_line_step sample_env 5 zero_world =
    inr (5%Q, mkWorld (tape zero_world) 1 [status_redraw sample_env])
  /\ exists frames w',
       status_line_step sample_env 0 zero_world =
         inr (time_after_glitch sample_env, w')
       /\ tape w' = tape zero_world
       /\ trace w' = (trace zero_world ++ frames ++ [status_redraw sample_env])%list
       /\ (9 <= List.length frames <= 18)%nat.
Proof.
  split.
  - apply (proj1 (proj2 (proj1 (glitch_wait_drawn_every_tick sample_env zero_world) 5%Q))).
    vm_compute. intros H. discriminate H.
  - apply (proj2 (proj2 (proj1 (glitch_wait_drawn_every_tick sample_env zero_world) 0%Q))).
    vm_compute. reflexivity.
Defined.

(** C1 does not hold as worded.  Start at 0 with a generator that reads 6.75 and
    then 3 as waits.  The iteration at time 5 does not glitch and leaves
    [last_status_glitch_time] alone, yet it has consumed a reading of the
    generator: a wait was drawn without a trigger.  The next iteration, at
    5.85, compares with a new wait, 3, and glitches, although 5.85 does not
    exceed the 6.75 of the iteration before and no trigger lies between;
    the schedule of the specification, holding 6.75, does not fire there. *)
Lemma wait_redrawn_without_trigger :
  let w := mkWorld (tape_at 0 (3 * 2 ^ 51)) 0 [] in
  let w1 := mkWorld (tape_at 0 (3 * 2 ^ 51)) 1 [status_redraw sample_env] in
  (wait_of (tape w 0) == 27 # 4)%Q
  /\ (wait_of (tape w 1) == 3)%Q
  /\ status_line_step sample_env 0 w = inr (0%Q, w1)
  /\ (exists w2, status_line_step sample_env_next 0 w1 =
                 inr (time_after_glitch sample_env_next, w2))
  /\ GlitchScheduleSpec.fires
       (GlitchScheduleSpec.mkGlitchSchedule 0 (wait_of (tape w 0)))
       (time_check sample_env_next) = false
  /\ GlitchScheduleSpec.step
       (GlitchScheduleSpec.mkGlitchSchedule 0 (wait_of (tape w 0)))
       (time_check sample_env_next) (time_after_glitch sample_env_next)
       (wait_of (tape w 1))
     = GlitchScheduleSpec.mkGlitchSchedule 0 (wait_of (tape w 0)).
Proof.
  intros w w1.
  split; [reflexivity|]. split; [reflexivity|]. split; [reflexivity|].
  split.
  - destruct (status_line_step_run sample_env_next 0 w1) as [_ Hyes].
    destruct (Hyes eq_refl) as [frames [w2 [Hrun _]]].
    now exists w2.
  - split; reflexivity.
Qed.

(** ** The log within an iteration *)

Lemma enumerate_events_app {A} (write : nat -> A -> Event) (l1 l2 : list A) :
  forall i,
    enumerate_events write i (l1 ++ l2) =
    (enumerate_events write i l1
     ++ enumerate_events write (i + List.length l1) l2)%list.
Proof.
  induction l1 as [|x l1 IH]; intros i; simpl.
  - now rewrite Nat.add_0_r.
  - rewrite IH. do 3 f_equal. lia.
Qed.

(** C4, as the code has it: an iteration appends its summary line to the
    log (dropping the oldest line when over capacity) before it draws the
    log block, so the line is the last one rendered in that same
    iteration; the flush and the sleep follow. *)
Theorem tick_log_appended_before_render :
  forall (fmt_f : nat -> nat -> Q -> string) (env : TickEnv)
         (st st' : LoopState) (w w' : World),
    tick fmt_f env st w = inr (Some st', w') ->
    log_lines st' = log_append (log_lines st) (log_message fmt_f env)
    /\ exists before kept,
         log_lines st' = (kept ++ [log_message fmt_f env])%list
         /\ trace w' =
            (before
             ++ log_events kept
             ++ [Addstr (log_start_row + Z.of_nat (List.length kept)) 4
                        (Py.ljust (log_message fmt_f env) 60) (color_pair 6)]
             ++ [Refresh; Sleep REFRESH_RATE])%list.
Proof.
  intros fmt_f env st st' w w' Htick.
  rewrite (tick_run fmt_f env st w (tick_some_not_quit _ _ _ _ _ _ Htick)) in Htick.
  destruct (tick_head env (last_status_glitch_time st) w) as [e | [last w1]];
    [discriminate|].
  destruct (process_loop (process_iter env) []) as [e | processes];
    [discriminate|].
  injection Htick as Hst Hw. subst st' w'. cbn [log_lines].
  split; [reflexivity|].
  unfold tick_tail_events. cbn [add_events trace].
  rewrite log_append_cases.
  set (kept := if (List.length (log_lines st) <? MAX_LOG_LINES)%nat
               then log_lines st else tl (log_lines st)).
  eexists. exists kept. split; [reflexivity|].
  unfold log_events at 1. rewrite enumerate_events_app. cbn [enumerate_events].
  fold (log_events kept). rewrite Nat.add_0_l.
  rewrite !app_assoc. reflexivity.
Qed.

Lemma tick_log_appended_before_render_witness :
  exists st' w',
    tick fmt_floor sample_env (mkLoopState 0 ["older line"]) zero_world
    = inr (Some st', w')
    /\ log_lines st' = log_append ["older line"] (log_message fmt_floor sample_env)
    /\ exists before kept,
         log_lines st' = (kept ++ [log_message fmt_floor sample_env])%list
         /\ trace w' =
            (before
             ++ log_events kept
             ++ [Addstr (log_start_row + Z.of_nat (List.length kept)) 4
                        (Py.ljust (log_message fmt_floor sample_env) 60)
                        (color_pair 6)]
             ++ [Refresh; Sleep REFRESH_RATE])%list.
Proof.
  eexists. eexists.
  refine ((fun E => conj E (tick_log_appended_before_render
                              fmt_floor sample_env _ _ _ _ E)) _).
  vm_compute. reflexivity.
Defined.

(** C4 does not hold as worded: on an empty log, the log block drawn by the first
    iteration already shows that iteration's own summary line, where the
    claim has it show the log as it was, with no line at all. *)
Lemma own_line_rendered_in_same_tick :
  exists st' w',
    tick fmt_floor sample_env (mkLoopState 5 []) zero_world = inr (Some st', w')
    /\ rendered_log (trace w') = [Py.ljust (log_message fmt_floor sample_env) 60]
    /\ rendered_log (trace w') <> rendered_log (log_events [])
    /\ log_message fmt_floor sample_env = "[12:00:00] CPU 10%, MEM 10%".
Proof.
  eexists. eexists. split; [vm_compute; reflexivity|].
  split; [reflexivity|]. split; [discriminate | reflexivity].
Qed.

(** ** Failing process reads *)

Lemma process_loop_app (pre rest : list ProcRead) :
  forall acc,
    process_loop (pre ++ rest) acc =
    match process_loop pre acc with
    | inl e => inl e
    | inr acc' => process_loop rest acc'
    end.
Proof.
  induction pre as [|p pre IH]; intros acc; [reflexivity|].
  cbn [app process_loop].
  destruct (try_body p) as [e | entry]; [destruct (caught e)|]; auto.
Qed.

Lemma process_loop_entries (reads : list ProcRead) :
  forallb (fun p => match p with Read _ => true | Raises e => caught e end) reads
  = true ->
  forall acc, process_loop reads acc = inr (acc ++ entries_of reads)%list.
Proof.
  induction reads as [|p reads IH]; intros Hall acc.
  - simpl. now rewrite app_nil_r.
  - cbn [forallb] in Hall. apply andb_true_iff in Hall as [Hp Hall].
    destruct p as [info | e]; cbn [process_loop try_body entries_of flat_map].
    + rewrite (IH Hall). now rewrite <- app_assoc.
    + rewrite Hp. now rewrite (IH Hall).
Qed.



(** ** The log across iterations *)

Lemma tick_log_lines (fmt_f : nat -> nat -> Q -> string) (env : TickEnv)
    (st st' : LoopState) (w w' : World) :
  tick fmt_f env st w = inr (Some st', w') ->
  log_lines st' = log_append (log_lines st) (log_message fmt_f env).
Proof.
  intros Htick.
  rewrite (tick_run fmt_f env st w (tick_some_not_quit _ _ _ _ _ _ Htick)) in Htick.
  destruct (tick_head _ _ _) as [e | [last w1]]; [discriminate|].
  destruct (process_loop _ _) as [e | processes]; [discriminate|].
  injection Htick as Hst _. now rewrite <- Hst.
Qed.

(** The log after the loop is the log before it with the summary lines of
    the iterations that ran appended one by one. *)
Lemma run_ticks_log (fmt_f : nat -> nat -> Q -> string) (envs : list TickEnv) :
  forall (st st' : LoopState) (w w' : World),
    run_ticks fmt_f envs st w = inr (st', w') ->
    exists ran rest,
      envs = (ran ++ rest)%list
      /\ log_lines st' =
         fold_left log_append (map (log_message fmt_f) ran) (log_lines st).
Proof.
  induction envs as [|env envs IH]; intros st st' w w' Hrun.
  - injection Hrun as Hst _. subst st'. exists [], []. split; reflexivity.
  - cbn [run_ticks] in Hrun. unfold bind at 1 in Hrun.
    destruct (tick fmt_f env st w) as [e | [[st1|] w1]] eqn:E; [discriminate| |].
    + destruct (IH _ _ _ _ Hrun) as [ran [rest [Henvs Hlog]]].
      exists (env :: ran), rest. split; [simpl; now rewrite Henvs|].
      cbn [map fold_left]. now rewrite <- (tick_log_lines _ _ _ _ _ _ E).
    + injection Hrun as Hst _. subst st'. exists [], (env :: envs).
      split; reflexivity.
Qed.

Lemma draw_init_run (time0 : Q) (w : World) :
  exists w0, draw_init time0 w = inr (mkLoopState time0 [], w0).
Proof.
  unfold draw_init, addstr at 1.
  rewrite (bind_run _ _ _ _ _ (for_enumerate_run _ _ _ _)).
  destruct (generate_device_id_run
              (add_events w (enumerate_events
                               (fun i x => Addstr (1 + Z.of_nat i) 2 x (color_pair 8))
                               0 HEADER))) as [live_feed H].
  rewrite (bind_run _ _ _ _ _ H).
  unfold addstr. rewrite (bind_run _ _ _ _ _ (emit_run _ _)).
  eexists. reflexivity.
Qed.

(** ** The sort is the stable sort *)

(** A list in decreasing key order is determined by its groups of equal
    keys: two such lists with the same groups, in the same inner order, are
    equal. *)
Lemma stable_sorted_unique {A} (key : A -> Q) (l1 : list A) :
  forall l2 : list A,
    StronglySorted (fun a b => key b <= key a)%Q l1 ->
    StronglySorted (fun a b => key b <= key a)%Q l2 ->
    (forall c, filter (fun p => Qeq_bool (key p) c) l1 =
               filter (fun p => Qeq_bool (key p) c) l2) ->
    l1 = l2.
Proof.
  induction l1 as [|x l1 IH]; intros l2 Hs1 Hs2 Hgroups.
  - destruct l2 as [|y l2]; [reflexivity|].
    specialize (Hgroups (key y)). cbn [filter] in Hgroups.
    rewrite Qeq_bool_refl in Hgroups. discriminate.
  - destruct l2 as [|y l2].
    + specialize (Hgroups (key x)). cbn [filter] in Hgroups.
      rewrite Qeq_bool_refl in Hgroups. discriminate.
    + inversion Hs1 as [|? ? Hs1' Hall1]; subst.
      inversion Hs2 as [|? ? Hs2' Hall2]; subst.
      rewrite Forall_forall in Hall1, Hall2.
      assert (Hxy : x = y).
      { pose proof (Hgroups (key y)) as Hy. cbn [filter] in Hy.
        rewrite Qeq_bool_refl in Hy.
        destruct (Qeq_bool (key x) (key y)) eqn:E; [now injection Hy|].
        exfalso.
        assert (Hyin : In y l1).
        { apply (proj1 (filter_In (fun p => Qeq_bool (key p) (key y)) y l1)).
          rewrite Hy. now left. }
        pose proof (Hgroups (key x)) as Hx. cbn [filter] in Hx.
        rewrite Qeq_bool_refl in Hx.
        destruct (Qeq_bool (key y) (key x)) eqn:E'.
        { apply Qeq_bool_iff in E'. symmetry in E'.
          apply Qeq_bool_iff in E'. congruence. }
        assert (Hxin : In x l2).
        { apply (proj1 (filter_In (fun p => Qeq_bool (key p) (key x)) x l2)).
          rewrite <- Hx. now left. }
        pose proof (Qle_antisym _ _ (Hall2 x Hxin) (Hall1 y Hyin)) as Heq.
        apply Qeq_bool_iff in Heq. congruence. }
      subst y. f_equal. apply IH; [exact Hs1' | exact Hs2' |].
      intros c. specialize (Hgroups c). cbn [filter] in Hgroups.
      destruct (Qeq_bool (key x) c); [now injection Hgroups | exact Hgroups].
Qed.

(** Whatever list a stable descending sort returns, it is the one
    [sort_reverse] computes. *)
Lemma sort_reverse_unique {A} (key : A -> Q) (l sorted : list A) :
  StronglySorted (fun a b => key b <= key a)%Q sorted ->
  (forall c, filter (fun p => Qeq_bool (key p) c) sorted =
             filter (fun p => Qeq_bool (key p) c) l) ->
  sorted = sort_reverse key l.
Proof.
  intros Hs Hgroups. apply (stable_sorted_unique key).
  - exact Hs.
  - apply sort_reverse_sorted.
  - intros c. now rewrite Hgroups, sort_reverse_stable.
Qed.

(** ** The log and the table in the loop *)

(** C5: the log is a FIFO of capacity [MAX_LOG_LINES] = 4.  After any
    sequence of appends from the empty log it holds at most 4 lines, namely
    the last lines appended, in their order; an append puts the new line at
    the end and drops the first line exactly when the log was full.  So it
    is in the loop: whenever [draw] returns, its log holds the summary
    lines of the last 4 iterations that ran, at most. *)
Theorem scrolling_log_fifo :
  MAX_LOG_LINES = 4%nat
  /\ (forall (msgs : list string) (m : string),
        let log := fold_left log_append msgs [] in
        (List.length log <= MAX_LOG_LINES)%nat
        /\ log = skipn (List.length msgs - MAX_LOG_LINES) msgs
        /\ log_append log m =
           ((if (List.length log <? MAX_LOG_LINES)%nat then log else tl log)
            ++ [m])%list
        /\ (List.length (log_append log m) <= MAX_LOG_LINES)%nat)
  /\ (forall (fmt_f : nat -> nat -> Q -> string) (time0 : Q)
             (envs : list TickEnv) (w : World) (st' : LoopState) (w' : World),
        draw fmt_f time0 envs w = inr (st', w') ->
        (List.length (log_lines st') <= MAX_LOG_LINES)%nat
        /\ exists ran rest,
             envs = (ran ++ rest)%list
             /\ log_lines st' =
                skipn (List.length ran - MAX_LOG_LINES)
                      (map (log_message fmt_f) ran)).
Proof.
  assert (Hlen : forall l : list string,
             (List.length (fold_left log_append l []) <= MAX_LOG_LINES)%nat).
  { intros l. rewrite log_is_last_lines, length_skipn. lia. }
  split; [reflexivity|]. split.
  - intros msgs m log.
    split; [apply Hlen|]. split; [apply log_is_last_lines|].
    split; [apply log_append_cases|].
    specialize (Hlen (msgs ++ [m])%list).
    rewrite fold_left_app in Hlen. exact Hlen.
  - intros fmt_f time0 envs w st' w' Hdraw.
    unfold draw in Hdraw.
    destruct (draw_init_run time0 w) as [w0 Hinit].
    rewrite (bind_run _ _ _ _ _ Hinit) in Hdraw.
    destruct (run_ticks_log fmt_f envs _ _ _ _ Hdraw) as [ran [rest [Henvs Hlog]]].
    cbn [log_lines] in Hlog. split.
    + rewrite Hlog. apply Hlen.
    + exists ran, rest. split; [exact Henvs|].
      rewrite Hlog, log_is_last_lines, length_map. reflexivity.
Qed.

Lemma scrolling_log_fifo_witness :
  exists st' w',
    draw fmt_floor 0
      [sample_env; sample_env_next; sample_env; sample_env_next; sample_env]
      zero_world = inr (st', w')
    /\ (List.length (log_lines st') <= MAX_LOG_LINES)%nat
    /\ exists ran rest,
         [sample_env; sample_env_next; sample_env; sample_env_next; sample_env]
         = (ran ++ rest)%list
         /\ log_lines st' =
            skipn (List.length ran - MAX_LOG_LINES)
                  (map (log_message fmt_floor) ran).
Proof.
  eexists. eexists.
  refine ((fun E => conj E (proj2 (proj2 scrolling_log_fifo)
                              fmt_floor 0%Q _ zero_world _ _ E)) _).
  vm_compute. reflexivity.
Defined.

(** * Further properties *)

(** ** Widths of formatted fields *)

Lemma length_append (s1 s2 : string) :
  String.length (s1 ++ s2) = (String.length s1 + String.length s2)%nat.
Proof. induction s1 as [|c s1 IH]; simpl; [reflexivity | now rewrite IH]. Qed.

Lemma length_repeat_char (c : ascii) (n : nat) :
  String.length (Py.repeat_char c n) = n.
Proof. induction n as [|n IH]; simpl; [reflexivity | now rewrite IH]. Qed.

Lemma ljust_length (s : string) (width : nat) :
  String.length (Py.ljust s width) = Nat.max width (String.length s).
Proof. unfold Py.ljust. rewrite length_append, length_repeat_char. lia. Qed.

Lemma rjust_length (s : string) (width : nat) :
  String.length (Py.rjust s width) = Nat.max width (String.length s).
Proof. unfold Py.rjust. rewrite length_append, length_repeat_char. lia. Qed.

Lemma fmt_0d_two_digits (z : Z) :
  0 <= z < 100 -> String.length (Py.fmt_0d 2 z) = 2%nat.
Proof.
  intros H. rewrite <- (Z2Nat.id z) by lia.
  assert (Hn : (Z.to_nat z < 100)%nat) by lia.
  revert Hn. generalize (Z.to_nat z). intros n Hn.
  do 100 (destruct n as [|n]; [reflexivity|]). lia.
Qed.

Lemma int_range (x : Q) (bound : Z) :
  (0 <= x)%Q -> (x < inject_Z bound)%Q -> 0 <= Py.int x < bound.
Proof.
  unfold Qle, Qlt, Py.int. destruct x as [a b]. cbn [Qnum Qden inject_Z].
  intros H0 H1.
  assert (Ha : 0 <= a) by lia.
  rewrite Z.quot_div_nonneg by lia. split.
  - apply Z.div_pos; lia.
  - apply Z.div_lt_upper_bound; lia.
Qed.

Lemma format_time_fields (seconds : Q) :
  (0 <= seconds)%Q -> (seconds < 360000)%Q ->
  exists hh mm ss,
    format_time seconds = hh ++ ":" ++ mm ++ ":" ++ ss
    /\ String.length hh = 2%nat
    /\ String.length mm = 2%nat
    /\ String.length ss = 2%nat.
Proof.
  intros H0 H1.
  destruct (int_range seconds 360000 H0 H1) as [Hn0 Hn1].
  unfold format_time, Py.divmod.
  set (n := Py.int seconds) in *.
  assert (Hh : 0 <= n / 60 / 60 < 100).
  { rewrite Z.div_div by lia. split.
    - apply Z.div_pos; lia.
    - apply Z.div_lt_upper_bound; lia. }
  assert (Hm : 0 <= (n / 60) mod 60 < 100).
  { pose proof (Z.mod_pos_bound (n / 60) 60). lia. }
  assert (Hs : 0 <= n mod 60 < 100).
  { pose proof (Z.mod_pos_bound n 60). lia. }
  eexists; eexists; eexists. split; [reflexivity|].
  split; [|split]; now apply fmt_0d_two_digits.
Qed.

(** X1: below a hundred hours a non-negative duration prints as exactly
    eight characters, two digits per field with colons between. *)
Theorem format_time_eight_wide : forall seconds : Q,
  (0 <= seconds)%Q -> (seconds < 360000)%Q ->
  String.length (format_time seconds) = 8%nat
  /\ exists hh mm ss,
       format_time seconds = hh ++ ":" ++ mm ++ ":" ++ ss
       /\ String.length hh = 2%nat
       /\ String.length mm = 2%nat
       /\ String.length ss = 2%nat.
Proof.
  intros seconds H0 H1.
  destruct (format_time_fields seconds H0 H1) as [hh [mm [ss [Heq [Lh [Lm Ls]]]]]].
  split.
  - rewrite Heq, !length_append, Lh, Lm, Ls. reflexivity.
  - exists hh, mm, ss. auto.
Qed.

Lemma format_time_eight_wide_witness :
  String.length (format_time 86399) = 8%nat
  /\ exists hh mm ss,
       format_time 86399 = hh ++ ":" ++ mm ++ ":" ++ ss
       /\ String.length hh = 2%nat
       /\ String.length mm = 2%nat
       /\ String.length ss = 2%nat.
Proof.
  apply (format_time_eight_wide 86399).
  - unfold Qle. simpl. lia.
  - unfold Qlt. simpl. lia.
Defined.

(** X2: [int] truncates towards zero and [divmod] floors.  A duration
    strictly between -1 and 1 second prints as "00:00:00"; a whole negative
    number of seconds down to minus one hour prints with the hour field
    "-1" and the minutes and seconds of the duration plus one hour. *)
Theorem format_time_negative :
  (forall seconds : Q,
     (-1 < seconds)%Q -> (seconds < 1)%Q -> format_time seconds = "00:00:00")
  /\ (forall n : Z,
        -3600 <= n < 0 ->
        format_time (inject_Z n) =
        "-1:" ++ Py.fmt_0d 2 ((n + 3600) / 60) ++ ":"
              ++ Py.fmt_0d 2 ((n + 3600) mod 60)).
Proof.
  split.
  - intros [a b] H0 H1. unfold Qlt in *. cbn [Qnum Qden] in *.
    assert (Hint : Py.int (a # b) = 0).
    { unfold Py.int. cbn [Qnum Qden]. apply Z.quot_small_iff; lia. }
    unfold format_time. rewrite Hint. reflexivity.
  - intros n Hn. unfold format_time, Py.divmod. rewrite int_inject_Z.
    assert (Hq : n / 60 = (n + 3600) / 60 - 60).
    { replace (n + 3600) with (n + 60 * 60) by lia.
      rewrite Z.div_add by lia. lia. }
    assert (Hb : 0 <= (n + 3600) / 60 < 60).
    { split; [apply Z.div_pos; lia | apply Z.div_lt_upper_bound; lia]. }
    assert (Hh : n / 60 / 60 = -1).
    { rewrite Z.div_div by lia. symmetry. apply (Z.div_unique n 3600 (-1) (n + 3600)); lia. }
    assert (Hm : (n / 60) mod 60 = (n + 3600) / 60).
    { rewrite Hq. symmetry.
      apply (Z.mod_unique ((n + 3600) / 60 - 60) 60 (-1) ((n + 3600) / 60)); lia. }
    assert (Hs : n mod 60 = (n + 3600) mod 60).
    { replace (n + 3600) with (n + 60 * 60) by lia.
      now rewrite Z.mod_add by lia. }
    rewrite Hh, Hm, Hs. reflexivity.
Qed.

Lemma format_time_negative_witness :
  format_time (-1 # 2) = "00:00:00" /\ format_time (inject_Z (-1)) = "-1:59:59".
Proof.
  split.
  - apply (proj1 format_time_negative (-1 # 2)).
    + unfold Qlt. simpl. lia.
    + unfold Qlt. simpl. lia.
  - apply (proj2 format_time_negative (-1)). lia.
Defined.

(** ** The status and its colour *)

Lemma ge_mono (a a' t : Q) : (a <= a')%Q -> Py.ge a t = true -> Py.ge a' t = true.
Proof.
  intros Hle H. apply ge_spec in H. apply ge_spec.
  now apply Qle_trans with a.
Qed.

Lemma or_ge_mono (cpu cpu' mem mem' tc tm : Q) :
  (cpu <= cpu')%Q -> (mem <= mem')%Q ->
  Py.ge cpu tc || Py.ge mem tm = true ->
  Py.ge cpu' tc || Py.ge mem' tm = true.
Proof.
  intros Hc Hm H. apply orb_true_iff in H. apply orb_true_iff.
  destruct H as [H | H]; [left | right]; eapply ge_mono; eauto.
Qed.

Lemma severity_of_status (cpu mem : Q) :
  severity (get_system_status cpu mem) =
  if Py.ge cpu 80 || Py.ge mem 85 then 3%nat
  else if Py.ge cpu 60 || Py.ge mem 70 then 2%nat
  else if Py.ge cpu 40 || Py.ge mem 60 then 1%nat
  else 0%nat.
Proof.
  unfold get_system_status.
  destruct (Py.ge cpu 80 || Py.ge mem 85); [reflexivity|].
  destruct (Py.ge cpu 60 || Py.ge mem 70); [reflexivity|].
  destruct (Py.ge cpu 40 || Py.ge mem 60); reflexivity.
Qed.

(** X3: the status never improves when the load grows: with more cpu and
    more memory in use the status is at least as grave. *)
Theorem get_system_status_monotone : forall cpu mem cpu' mem' : Q,
  (cpu <= cpu')%Q -> (mem <= mem')%Q ->
  (severity (get_system_status cpu mem)
   <= severity (get_system_status cpu' mem'))%nat.
Proof.
  intros cpu mem cpu' mem' Hc Hm. rewrite !severity_of_status.
  pose proof (or_ge_mono cpu cpu' mem mem' 80 85 Hc Hm) as H3.
  pose proof (or_ge_mono cpu cpu' mem mem' 60 70 Hc Hm) as H2.
  pose proof (or_ge_mono cpu cpu' mem mem' 40 60 Hc Hm) as H1.
  destruct (Py.ge cpu 80 || Py.ge mem 85).
  { rewrite (H3 eq_refl). lia. }
  destruct (Py.ge cpu 60 || Py.ge mem 70).
  { rewrite (H2 eq_refl). destruct (Py.ge cpu' 80 || Py.ge mem' 85); lia. }
  destruct (Py.ge cpu 40 || Py.ge mem 60).
  { rewrite (H1 eq_refl).
    destruct (Py.ge cpu' 80 || Py.ge mem' 85); [lia|].
    destruct (Py.ge cpu' 60 || Py.ge mem' 70); lia. }
  lia.
Qed.

Lemma get_system_status_monotone_witness :
  (severity (get_system_status 45 50) <= severity (get_system_status 65 72))%nat.
Proof.
  apply get_system_status_monotone; unfold Qle; simpl; lia.
Defined.

(** X4: the status line is bold exactly when cpu is at least 60 or memory
    at least 70, and it takes colour pair 5 exactly when cpu is at least 80
    or memory at least 85; a bold line that is not pair 5 is pair 1, and a
    line that is not bold is pair 4. *)
Theorem status_color_thresholds : forall cpu mem : Q,
  let color := status_color (get_system_status cpu mem) in
  (bold color = true <-> (60 <= cpu \/ 70 <= mem)%Q)
  /\ (pair color = 5%nat <-> (80 <= cpu \/ 85 <= mem)%Q)
  /\ (bold color = true -> pair color <> 5%nat -> pair color = 1%nat)
  /\ (bold color = false -> pair color = 4%nat).
Proof.
  intros cpu mem color. subst color. unfold get_system_status.
  assert (Hor : forall a b x y,
             Py.ge x a || Py.ge y b = true <-> (a <= x \/ b <= y)%Q).
  { intros. rewrite orb_true_iff, !ge_spec. tauto. }
  assert (Hweak : (80 <= cpu \/ 85 <= mem)%Q -> (60 <= cpu \/ 70 <= mem)%Q).
  { intros [H | H]; [left | right];
      (eapply Qle_trans; [|exact H]); unfold Qle; simpl; lia. }
  destruct (Py.ge cpu 80 || Py.ge mem 85) eqn:E3.
  { apply Hor in E3. cbn. repeat split; auto; intros; congruence. }
  assert (N3 : ~ (80 <= cpu \/ 85 <= mem)%Q).
  { intros H. apply Hor in H. congruence. }
  destruct (Py.ge cpu 60 || Py.ge mem 70) eqn:E2.
  { apply Hor in E2. cbn.
    repeat split; auto; intros; try congruence; try discriminate; try contradiction. }
  assert (N2 : ~ (60 <= cpu \/ 70 <= mem)%Q).
  { intros H. apply Hor in H. congruence. }
  destruct (Py.ge cpu 40 || Py.ge mem 60); cbn;
    repeat split; auto; intros; try congruence; try discriminate; try contradiction.
Qed.

Lemma status_color_thresholds_witness :
  bold (status_color (get_system_status 65 50)) = true
  /\ pair (status_color (get_system_status 65 50)) = 1%nat.
Proof.
  assert (Hb : bold (status_color (get_system_status 65 50)) = true).
  { apply (proj1 (status_color_thresholds 65 50)).
    left. unfold Qle. simpl. lia. }
  split; [exact Hb|].
  apply (proj1 (proj2 (proj2 (status_color_thresholds 65 50))) Hb).
  discriminate.
Defined.

(** ** What the animation shows *)

Lemma length_string_of_list (l : list ascii) :
  String.length (string_of_list_ascii l) = List.length l.
Proof. induction l as [|a l IH]; simpl; [reflexivity | now rewrite IH]. Qed.

Lemma length_list_of_string (s : string) :
  List.length (list_ascii_of_string s) = String.length s.
Proof. induction s as [|a s IH]; simpl; [reflexivity | now rewrite IH]. Qed.

Lemma get_occurs (s : string) :
  forall (i : nat) (c : ascii), String.get i s = Some c -> occurs c s = true.
Proof.
  induction s as [|d s IH]; intros i c H; [discriminate|].
  destruct i as [|i]; simpl in H |- *.
  - injection H as ->. now rewrite Ascii.eqb_refl.
  - rewrite (IH i c H). apply orb_true_r.
Qed.

Lemma choice_occurs (s : string) (c0 : ascii) (w : World) :
  String.get 0 s = Some c0 ->
  exists c, Random.choice s w =
            inr (c, mkWorld (tape w) (S (cursor w)) (trace w))
            /\ occurs c s = true.
Proof.
  intros H. unfold Random.choice. rewrite H.
  unfold bind, Random.next.
  destruct (String.get (N.to_nat (tape w (cursor w)) mod String.length s) s)
    as [c|] eqn:E.
  - exists c. split; [reflexivity | exact (get_occurs _ _ _ E)].
  - exists c0. split; [reflexivity | exact (get_occurs _ _ _ H)].
Qed.

Lemma differences_refl (l : list ascii) : differences l l = 0%nat.
Proof.
  induction l as [|a l IH]; simpl; [reflexivity|].
  now rewrite Ascii.eqb_refl, IH.
Qed.

Lemma kept_or_glitch_refl (l : list ascii) : Forall2 kept_or_glitch l l.
Proof. induction l; constructor; [now left | assumption]. Qed.

Lemma setitem_step (l : list ascii) :
  forall (pos : nat) (c : ascii),
    (pos < List.length l)%nat ->
    occurs c GLITCH_CHARS = true ->
    exists l', setitem l pos c = inr l'
               /\ Forall2 kept_or_glitch l l'
               /\ (differences l l' <= 1)%nat.
Proof.
  induction l as [|a l IH]; intros pos c Hpos Hc; simpl in Hpos; [lia|].
  destruct pos as [|pos]; cbn [setitem].
  - exists (c :: l). split; [reflexivity|]. split.
    + constructor; [now right | apply kept_or_glitch_refl].
    + cbn [differences]. rewrite differences_refl.
      destruct (Ascii.eqb a c); lia.
  - destruct (IH pos c ltac:(lia) Hc) as [l' [Hset [Hrel Hdiff]]].
    rewrite Hset. exists (a :: l'). split; [reflexivity|]. split.
    + constructor; [now left | exact Hrel].
    + cbn [differences]. now rewrite Ascii.eqb_refl.
Qed.

Lemma kept_or_glitch_compose (l l1 : list ascii) :
  Forall2 kept_or_glitch l l1 ->
  forall l2,
    Forall2 kept_or_glitch l1 l2 ->
    Forall2 kept_or_glitch l l2
    /\ (differences l l2 <= differences l l1 + differences l1 l2)%nat.
Proof.
  induction 1 as [|a b l l1 Hab _ IH]; intros l2 H2.
  - inversion H2; subst. split; [constructor | simpl; lia].
  - inversion H2 as [|? c ? l2' Hbc H2']; subst.
    destruct (IH _ H2') as [Hrel Hdiff]. split.
    + constructor; [|exact Hrel].
      destruct Hbc as [-> | Hc]; [exact Hab | now right].
    + cbn [differences].
      destruct (Ascii.eqb_spec a c), (Ascii.eqb_spec a b), (Ascii.eqb_spec b c);
        subst; try congruence; lia.
Qed.

(** The replacements of one frame: each goes through, and what comes out
    differs from the buffer at no more than [n] places. *)
Lemma corrupt_spec (n : nat) :
  forall (l : list ascii) (w : World),
    l <> [] ->
    exists l', corrupt n l w =
               inr (l', mkWorld (tape w) (cursor w + 2 * n) (trace w))
               /\ Forall2 kept_or_glitch l l'
               /\ (differences l l' <= n)%nat.
Proof.
  induction n as [|n IH]; intros l w Hne.
  - exists l. simpl. unfold ret. split; [|split].
    + destruct w; simpl. now rewrite Nat.add_0_r.
    + apply kept_or_glitch_refl.
    + now rewrite differences_refl.
  - destruct l as [|a l]; [congruence|].
    cbn [corrupt]. unfold Random.randrange. cbn [List.length].
    set (len := S (List.length l)).
    set (pos := (N.to_nat (tape w (cursor w)) mod len)%nat).
    assert (Hpos : (pos < len)%nat) by (apply Nat.mod_upper_bound; discriminate).
    destruct (choice_occurs GLITCH_CHARS "!"
                (mkWorld (tape w) (S (cursor w)) (trace w)) eq_refl)
      as [c [Hc Hocc]].
    destruct (setitem_step (a :: l) pos c Hpos Hocc) as [l1 [Hset [Hrel1 Hdiff1]]].
    assert (Hne1 : l1 <> []).
    { intros ->. inversion Hrel1. }
    destruct (IH l1 (mkWorld (tape w) (S (S (cursor w))) (trace w)) Hne1)
      as [l2 [Hrun [Hrel2 Hdiff2]]].
    destruct (kept_or_glitch_compose _ _ Hrel1 _ Hrel2) as [Hrel Hdiff].
    exists l2. split; [|split; [exact Hrel | lia]].
    unfold bind at 1. unfold bind at 1. unfold Random.next, ret.
    fold pos. unfold bind at 1. rewrite Hc.
    unfold bind at 1. rewrite Hset. simpl lift. unfold ret.
    rewrite Hrun. simpl. do 3 f_equal. lia.
Qed.

Lemma glitch_frame_spec (text : string) (color : Attr)
    (row x min_chars max_chars : Z) (frame_delay : Q) (w : World) :
  text <> "" -> min_chars <= max_chars ->
  exists shown w',
    glitch_frame text color row x min_chars max_chars frame_delay w = inr (tt, w')
    /\ tape w' = tape w
    /\ trace w' = (trace w ++ frame_events shown color row x frame_delay)%list
    /\ glitched_from text (Z.to_nat max_chars) shown.
Proof.
  intros Hne Hle. unfold glitch_frame.
  rewrite (bind_run _ _ _ _ _ (randint_run _ _ w Hle)).
  pose proof (randint_range min_chars max_chars (tape w (cursor w)) Hle) as Hr.
  set (count := min_chars + Z.of_N (tape w (cursor w)) mod (max_chars - min_chars + 1)) in *.
  destruct (corrupt_spec (Z.to_nat count) (list_ascii_of_string text)
              (mkWorld (tape w) (S (cursor w)) (trace w))
              (list_ascii_nonempty text Hne)) as [l' [Hrun [Hrel Hdiff]]].
  rewrite (bind_run _ _ _ _ _ Hrun).
  assert (Hlen : String.length (string_of_list_ascii l') = String.length text).
  { rewrite length_string_of_list, <- (Forall2_length Hrel).
    apply length_list_of_string. }
  rewrite <- Hlen, ljust_own_length.
  exists (string_of_list_ascii l'). eexists.
  split; [reflexivity|]. split; [reflexivity|]. split.
  - simpl. rewrite <- !app_assoc. reflexivity.
  - unfold glitched_from. rewrite list_ascii_of_string_of_list_ascii.
    split; [exact Hlen|]. split; [lia | exact Hrel].
Qed.

Lemma glitch_frames_spec (n : nat) (text : string) (color : Attr)
    (row x min_chars max_chars : Z) (frame_delay : Q) :
  text <> "" -> min_chars <= max_chars ->
  forall w, exists shows w',
    glitch_frames n text color row x min_chars max_chars frame_delay w = inr (tt, w')
    /\ tape w' = tape w
    /\ trace w' = (trace w ++ animation_events shows color row x frame_delay)%list
    /\ List.length shows = n
    /\ Forall (glitched_from text (Z.to_nat max_chars)) shows.
Proof.
  intros Hne Hle. induction n as [|n IH]; intros w.
  - exists [], w. simpl. rewrite app_nil_r. auto.
  - destruct (glitch_frame_spec text color row x min_chars max_chars
                frame_delay w Hne Hle) as [shown [w1 [H1 [Ht1 [Htr1 Hok]]]]].
    destruct (IH w1) as [shows [w2 [H2 [Ht2 [Htr2 [Hlen Hall]]]]]].
    exists (shown :: shows), w2.
    cbn [glitch_frames]. rewrite (bind_run _ _ _ _ _ H1).
    split; [exact H2|]. split; [congruence|]. split; [|split].
    + rewrite Htr2, Htr1. unfold animation_events. cbn [flat_map].
      now rewrite <- app_assoc.
    + simpl. now rewrite Hlen.
    + now constructor.
Qed.

(** The frames of a whole animation. *)
Lemma glitch_line_animation (text : string) (color : Attr)
    (row x min_chars max_chars min_frames max_frames : Z)
    (frame_delay : Q) (w : World) :
  text <> "" -> min_chars <= max_chars -> min_frames <= max_frames ->
  exists shows w',
    glitch_line text color row x min_chars max_chars min_frames max_frames
      frame_delay w = inr (tt, w')
    /\ tape w' = tape w
    /\ trace w' = (trace w ++ animation_events shows color row x frame_delay)%list
    /\ (Z.to_nat min_frames <= List.length shows <= Z.to_nat max_frames)%nat
    /\ Forall (glitched_from text (Z.to_nat max_chars)) shows.
Proof.
  intros Hne Hc Hf. unfold glitch_line.
  rewrite (bind_run _ _ _ _ _ (randint_run _ _ w Hf)).
  pose proof (randint_range min_frames max_frames (tape w (cursor w)) Hf) as Hr.
  destruct (glitch_frames_spec
              (Z.to_nat (min_frames + Z.of_N (tape w (cursor w)) mod (max_frames - min_frames + 1)))
              text color row x min_chars max_chars frame_delay Hne Hc
              (mkWorld (tape w) (S (cursor w)) (trace w)))
    as [shows [w' [Hrun [Ht [Htr [Hlen Hall]]]]]].
  exists shows, w'. split; [exact Hrun|]. split; [exact Ht|].
  split; [exact Htr|]. split; [rewrite Hlen; lia | exact Hall].
Qed.

Lemma animation_events_sleeps (shows : list string) (color : Attr) (row x : Z)
    (frame_delay : Q) :
  List.length (filter (fun e => match e with Sleep _ => true | _ => false end)
                 (animation_events shows color row x frame_delay))
  = List.length shows
  /\ Forall (fun e => match e with
                      | Sleep d => d = frame_delay
                      | Addstr r c _ a => r = row /\ c = x /\ a = color
                      | Refresh => True
                      end)
            (animation_events shows color row x frame_delay).
Proof.
  induction shows as [|shown shows [IH1 IH2]]; [split; [reflexivity | constructor]|].
  unfold animation_events in *. cbn [flat_map frame_events app filter List.length].
  split; [now rewrite IH1|].
  repeat (constructor; [auto|]). exact IH2.
Qed.

Lemma randint_empty (a b : Z) (w : World) :
  b < a -> Random.randint a b w = inl ValueError.
Proof.
  intros H. unfold Random.randint.
  destruct (Z.ltb_spec b a); [reflexivity | lia].
Qed.

(** What the replacements of a frame return, when they return. *)
Lemma corrupt_returns (n : nat) (l l' : list ascii) (w w' : World) :
  corrupt n l w = inr (l', w') ->
  Forall2 kept_or_glitch l l'
  /\ (differences l l' <= n)%nat
  /\ tape w' = tape w
  /\ trace w' = trace w.
Proof.
  intros H. destruct l as [|a l].
  - destruct n as [|n]; [|discriminate].
    injection H as <- <-. repeat split; [constructor | simpl; lia].
  - destruct (corrupt_spec n (a :: l) w ltac:(discriminate))
      as [l0 [Hrun [Hrel Hdiff]]].
    rewrite Hrun in H. injection H as <- <-. repeat split; assumption.
Qed.

Lemma glitch_frame_returns (text : string) (color : Attr)
    (row x min_chars max_chars : Z) (frame_delay : Q) (w w' : World) :
  glitch_frame text color row x min_chars max_chars frame_delay w = inr (tt, w') ->
  exists shown,
    tape w' = tape w
    /\ trace w' = (trace w ++ frame_events shown color row x frame_delay)%list
    /\ glitched_from text (Z.to_nat max_chars) shown.
Proof.
  unfold glitch_frame. intros H.
  destruct (Z_lt_le_dec max_chars min_chars) as [Hlt | Hle].
  { rewrite (bind_fail _ _ _ _ (randint_empty _ _ w Hlt)) in H. discriminate. }
  rewrite (bind_run _ _ _ _ _ (randint_run _ _ w Hle)) in H.
  pose proof (randint_range min_chars max_chars (tape w (cursor w)) Hle) as Hr.
  set (count := min_chars + Z.of_N (tape w (cursor w)) mod (max_chars - min_chars + 1)) in *.
  unfold bind at 1 in H.
  destruct (corrupt (Z.to_nat count) (list_ascii_of_string text)
              (mkWorld (tape w) (S (cursor w)) (trace w)))
    as [e | [l' w1]] eqn:Hrun; [discriminate|].
  destruct (corrupt_returns _ _ _ _ _ Hrun) as [Hrel [Hdiff [Ht Htr]]].
  cbn [tape trace] in Ht, Htr.
  assert (Hlen : String.length (string_of_list_ascii l') = String.length text).
  { rewrite length_string_of_list, <- (Forall2_length Hrel).
    apply length_list_of_string. }
  rewrite <- Hlen, ljust_own_length in H.
  unfold addstr, refresh, sleep, bind, emit in H. injection H as <-.
  exists (string_of_list_ascii l'). cbn [tape trace].
  split; [exact Ht|]. split.
  - rewrite Htr. unfold frame_events. rewrite <- !app_assoc. reflexivity.
  - unfold glitched_from. rewrite list_ascii_of_string_of_list_ascii.
    split; [exact Hlen|]. split; [lia | exact Hrel].
Qed.

Lemma glitch_frames_returns (n : nat) (text : string) (color : Attr)
    (row x min_chars max_chars : Z) (frame_delay : Q) :
  forall w w',
    glitch_frames n text color row x min_chars max_chars frame_delay w = inr (tt, w') ->
    exists shows,
      tape w' = tape w
      /\ trace w' = (trace w ++ animation_events shows color row x frame_delay)%list
      /\ List.length shows = n
      /\ Forall (glitched_from text (Z.to_nat max_chars)) shows.
Proof.
  induction n as [|n IH]; intros w w' H.
  - injection H as <-. exists []. simpl. rewrite app_nil_r. auto.
  - cbn [glitch_frames] in H. unfold bind at 1 in H.
    destruct (glitch_frame text color row x min_chars max_chars frame_delay w)
      as [e | [[] w1]] eqn:H1; [discriminate|].
    destruct (glitch_frame_returns _ _ _ _ _ _ _ _ _ H1) as [shown [Ht1 [Htr1 Hok]]].
    destruct (IH _ _ H) as [shows [Ht2 [Htr2 [Hlen Hall]]]].
    exists (shown :: shows).
    split; [congruence|]. split; [|split].
    + rewrite Htr2, Htr1. unfold animation_events. cbn [flat_map].
      now rewrite <- app_assoc.
    + simpl. now rewrite Hlen.
    + now constructor.
Qed.

(** X5: whenever the animation returns, it has drawn between [min_frames]
    and [max_frames] frames, each one a write at the given place in the
    given colour, a refresh and a sleep of [frame_delay], so it has slept
    once per frame; every frame shows a string as long as the text that
    differs from it at no more than [max_chars] places, glitch characters
    at those places. *)
Theorem glitch_line_frames :
  forall (text : string) (color : Attr)
         (row x min_chars max_chars min_frames max_frames : Z)
         (frame_delay : Q) (w w' : World),
    glitch_line text color row x min_chars max_chars min_frames max_frames
      frame_delay w = inr (tt, w') ->
    exists shows,
      tape w' = tape w
      /\ trace w' = (trace w ++ animation_events shows color row x frame_delay)%list
      /\ (Z.to_nat min_frames <= List.length shows <= Z.to_nat max_frames)%nat
      /\ Forall (glitched_from text (Z.to_nat max_chars)) shows
      /\ List.length (filter (fun e => match e with Sleep _ => true | _ => false end)
                        (animation_events shows color row x frame_delay))
         = List.length shows.
Proof.
  intros text color row x min_chars max_chars min_frames max_frames
         frame_delay w w' H.
  unfold glitch_line in H.
  destruct (Z_lt_le_dec max_frames min_frames) as [Hlt | Hf].
  { rewrite (bind_fail _ _ _ _ (randint_empty _ _ w Hlt)) in H. discriminate. }
  rewrite (bind_run _ _ _ _ _ (randint_run _ _ w Hf)) in H.
  pose proof (randint_range min_frames max_frames (tape w (cursor w)) Hf) as Hr.
  destruct (glitch_frames_returns _ _ _ _ _ _ _ _ _ _ H)
    as [shows [Ht [Htr [Hlen Hall]]]].
  exists shows. cbn [tape trace] in Ht, Htr.
  split; [exact Ht|]. split; [exact Htr|].
  split; [rewrite Hlen; lia|]. split; [exact Hall|].
  apply animation_events_sleeps.
Qed.

Lemma glitch_line_frames_witness :
  exists w',
    glitch_line "HELLO" (color_pair 4) 9 4 1 6 3 6 FRAME_DELAY zero_world
    = inr (tt, w')
    /\ exists shows,
         tape w' = tape zero_world
         /\ trace w' = (trace zero_world
                        ++ animation_events shows (color_pair 4) 9 4 FRAME_DELAY)%list
         /\ (Z.to_nat 3 <= List.length shows <= Z.to_nat 6)%nat
         /\ Forall (glitched_from "HELLO" (Z.to_nat 6)) shows
         /\ List.length (filter (fun e => match e with Sleep _ => true | _ => false end)
                           (animation_events shows (color_pair 4) 9 4 FRAME_DELAY))
            = List.length shows.
Proof.
  eexists.
  refine ((fun E => conj E (glitch_line_frames "HELLO" (color_pair 4) 9 4 1 6 3 6
                              FRAME_DELAY zero_world _ E)) _).
  vm_compute. reflexivity.
Defined.

(** ** Ill-formed ranges *)

(** X6: the ranges are checked only by [random.randint].  An empty frame
    range raises ValueError, whatever the text; a frame range that allows
    no frame returns with one reading of the generator and nothing drawn,
    whatever the text and the character range; with at least one frame, an
    empty character range raises ValueError. *)
Theorem glitch_line_ranges :
  forall (text : string) (color : Attr)
         (row x min_chars max_chars min_frames max_frames : Z)
         (frame_delay : Q) (w : World),
    (max_frames < min_frames ->
     glitch_line text color row x min_chars max_chars min_frames max_frames
       frame_delay w = inl ValueError)
    /\ (min_frames <= max_frames -> max_frames <= 0 ->
        glitch_line text color row x min_chars max_chars min_frames max_frames
          frame_delay w = inr (tt, mkWorld (tape w) (S (cursor w)) (trace w)))
    /\ (1 <= min_frames <= max_frames -> max_chars < min_chars ->
        glitch_line text color row x min_chars max_chars min_frames max_frames
          frame_delay w = inl ValueError).
Proof.
  intros text color row x min_chars max_chars min_frames max_frames frame_delay w.
  unfold glitch_line. split; [|split].
  - intros H. apply bind_fail. now apply randint_empty.
  - intros Hle H0.
    rewrite (bind_run _ _ _ _ _ (randint_run _ _ w Hle)).
    pose proof (randint_range min_frames max_frames (tape w (cursor w)) Hle) as Hr.
    destruct (Z.to_nat _) eqn:E; [reflexivity | lia].
  - intros Hf Hc.
    assert (Hle : min_frames <= max_frames) by lia.
    rewrite (bind_run _ _ _ _ _ (randint_run _ _ w Hle)).
    pose proof (randint_range min_frames max_frames (tape w (cursor w)) Hle) as Hr.
    destruct (Z.to_nat _) eqn:E; [lia|].
    cbn [glitch_frames]. apply bind_fail.
    unfold glitch_frame. apply bind_fail. now apply randint_empty.
Qed.

Lemma glitch_line_ranges_witness :
  glitch_line "HELLO" (color_pair 4) 9 4 1 6 6 3 FRAME_DELAY zero_world
    = inl ValueError
  /\ glitch_line "" (color_pair 4) 9 4 1 6 (-2) 0 FRAME_DELAY zero_world
     = inr (tt, mkWorld (tape zero_world) (S (cursor zero_world)) (trace zero_world))
  /\ glitch_line "HELLO" (color_pair 4) 9 4 6 1 3 6 FRAME_DELAY zero_world
     = inl ValueError.
Proof.
  split; [|split].
  - apply (proj1 (glitch_line_ranges "HELLO" (color_pair 4) 9 4 1 6 6 3
                    FRAME_DELAY zero_world)). lia.
  - apply (proj1 (proj2 (glitch_line_ranges "" (color_pair 4) 9 4 1 6 (-2) 0
                           FRAME_DELAY zero_world))); lia.
  - apply (proj2 (proj2 (glitch_line_ranges "HELLO" (color_pair 4) 9 4 6 1 3 6
                           FRAME_DELAY zero_world))); lia.
Defined.

(** ** The status line and its redraw *)

Lemma status_line_length (cpu mem : Q) :
  (String.length (STATUS_LINE (get_system_status cpu mem)) <= 40)%nat.
Proof.
  unfold get_system_status.
  destruct (Py.ge cpu 80 || Py.ge mem 85); [cbn; lia|].
  destruct (Py.ge cpu 60 || Py.ge mem 70); [cbn; lia|].
  destruct (Py.ge cpu 40 || Py.ge mem 60); cbn; lia.
Qed.

(** The status line of an iteration as a whole: what it draws is an
    animation, possibly of no frame, and the clean redraw. *)
Lemma status_line_step_frames (env : TickEnv) (last : Q) (w : World) :
  let status_text_val :=
    get_system_status (cpu_percent env) (virtual_memory_percent env) in
  exists shows last' w',
    status_line_step env last w = inr (last', w')
    /\ tape w' = tape w
    /\ trace w' =
       (trace w
        ++ animation_events shows (status_color status_text_val) status_row 4 FRAME_DELAY
        ++ [status_redraw env])%list
    /\ Forall (glitched_from (STATUS_LINE status_text_val) (Z.to_nat MAX_GLITCH_CHARS))
              shows
    /\ (shows = [] <->
        ~ (wait_of (tape w (cursor w)) < time_check env - last)%Q).
Proof.
  intros status_text_val.
  unfold status_line_step.
  rewrite (bind_run _ _ _ _ _ (uniform_wait_run w)).
  fold status_text_val.
  destruct (Py.gt (time_check env - last) (wait_of (tape w (cursor w)))) eqn:E.
  - unfold glitch_line_default.
    destruct (glitch_line_animation (STATUS_LINE status_text_val)
                (status_color status_text_val) status_row 4
                MIN_GLITCH_CHARS MAX_GLITCH_CHARS MIN_FRAMES MAX_FRAMES FRAME_DELAY
                (mkWorld (tape w) (S (cursor w)) (trace w))
                (status_line_nonempty _) ltac:(discriminate) ltac:(discriminate))
      as [shows [w1 [Hrun [Ht [Htr [Hcount Hall]]]]]].
    exists shows, (time_after_glitch env), (add_events w1 [status_redraw env]).
    unfold bind at 1. unfold bind at 1. rewrite Hrun.
    split; [reflexivity|]. split; [exact Ht|]. split.
    { simpl. rewrite Htr. simpl. now rewrite <- app_assoc. }
    split; [exact Hall|].
    apply gt_spec in E. split.
    + intros ->. simpl in Hcount. unfold MIN_FRAMES in Hcount. lia.
    + intros H. contradiction.
  - exists [], last, (mkWorld (tape w) (S (cursor w)) (trace w ++ [status_redraw env])).
    split; [reflexivity|]. split; [reflexivity|]. split; [reflexivity|].
    split; [constructor|].
    apply gt_false in E. split; [intros _; exact E | reflexivity].
Qed.

(** X7: whenever the status line of an iteration returns, the frames the
    animation has drawn, if any, are at the status row, column 4, and are
    as wide as the status text, which is at most 40; the write that follows
    them is at the same place, shows the clean text and is exactly 40
    wide, so it covers every frame.  No frame is drawn exactly when the
    elapsed time does not exceed the wait of this iteration. *)
Theorem status_redraw_covers_frames :
  forall (env : TickEnv) (last last' : Q) (w w' : World),
    status_line_step env last w = inr (last', w') ->
    let status_text_val :=
      get_system_status (cpu_percent env) (virtual_memory_percent env) in
    let color := status_color status_text_val in
    let clean := Py.ljust (STATUS_LINE status_text_val) 40 in
    exists shows,
      tape w' = tape w
      /\ trace w' =
         (trace w ++ animation_events shows color status_row 4 FRAME_DELAY
          ++ [Addstr status_row 4 clean color])%list
      /\ Forall (fun shown => (String.length shown <= String.length clean)%nat) shows
      /\ String.length clean = 40%nat
      /\ (exists pad, clean = STATUS_LINE status_text_val ++ pad)
      /\ (shows = [] <->
          ~ (wait_of (tape w (cursor w)) < time_check env - last)%Q).
Proof.
  intros env last last' w w' Hstep status_text_val color clean.
  pose proof (status_line_length (cpu_percent env) (virtual_memory_percent env))
    as Hlen.
  fold status_text_val in Hlen.
  assert (Hclean : String.length clean = 40%nat).
  { unfold clean. rewrite ljust_length. lia. }
  destruct (status_line_step_frames env last w)
    as [shows [last0 [w0 [Hrun [Ht [Htr [Hall Hnone]]]]]]].
  rewrite Hrun in Hstep. injection Hstep as _ <-.
  exists shows.
  split; [exact Ht|]. split; [exact Htr|]. split.
  { eapply Forall_impl; [|exact Hall].
    intros shown [Hs _]. rewrite Hs, Hclean. exact Hlen. }
  split; [exact Hclean|]. split; [|exact Hnone].
  eexists. reflexivity.
Qed.

Lemma status_redraw_covers_frames_witness :
  exists last' w',
    status_line_step sample_env 0 zero_world = inr (last', w')
    /\ exists shows,
         tape w' = tape zero_world
         /\ trace w' =
            (trace zero_world
             ++ animation_events shows
                  (status_color (get_system_status (cpu_percent sample_env)
                                   (virtual_memory_percent sample_env)))
                  status_row 4 FRAME_DELAY
             ++ [Addstr status_row 4
                   (Py.ljust (STATUS_LINE (get_system_status (cpu_percent sample_env)
                                             (virtual_memory_percent sample_env))) 40)
                   (status_color (get_system_status (cpu_percent sample_env)
                                    (virtual_memory_percent sample_env)))])%list
         /\ Forall (fun shown =>
                      (String.length shown
                       <= String.length
                            (Py.ljust (STATUS_LINE (get_system_status
                                                      (cpu_percent sample_env)
                                                      (virtual_memory_percent sample_env)))
                               40))%nat) shows
         /\ String.length
              (Py.ljust (STATUS_LINE (get_system_status (cpu_percent sample_env)
                                        (virtual_memory_percent sample_env))) 40)
            = 40%nat
         /\ (exists pad,
               Py.ljust (STATUS_LINE (get_system_status (cpu_percent sample_env)
                                        (virtual_memory_percent sample_env))) 40
               = STATUS_LINE (get_system_status (cpu_percent sample_env)
                                (virtual_memory_percent sample_env)) ++ pad)
         /\ (shows = [] <->
             ~ (wait_of (tape zero_world (cursor zero_world))
                < time_check sample_env - 0)%Q).
Proof.
  eexists. eexists.
  refine ((fun E => conj E (status_redraw_covers_frames sample_env 0%Q _
                              zero_world _ E)) _).
  vm_compute. reflexivity.
Defined.

(** ** Leaving the loop, and failing in it *)

Lemma tick_quit (fmt_f : nat -> nat -> Q -> string) (env : TickEnv)
    (st : LoopState) (w : World) :
  key_poll env = inr true -> tick fmt_f env st w = inr (None, w).
Proof. intros H. unfold tick. rewrite H. reflexivity. Qed.

Lemma tick_poll_raises (fmt_f : nat -> nat -> Q -> string) (env : TickEnv)
    (st : LoopState) (w : World) (e : PyError) :
  key_poll env = inl e -> tick fmt_f env st w = inl e.
Proof. intros H. unfold tick. rewrite H. reflexivity. Qed.

Lemma tick_head_total (env : TickEnv) (last : Q) (w : World) :
  exists last' w', tick_head env last w = inr (last', w') /\ tape w' = tape w.
Proof.
  destruct (tick_head_run env last w) as [live_feed Hhead]. rewrite Hhead.
  match goal with
  | |- context [status_line_step env last ?w0] =>
      destruct (status_line_step_frames env last w0)
        as [shows [last' [w' [Hrun [Ht _]]]]]
  end.
  exists last', w'. split; [exact Hrun | exact Ht].
Qed.

(** An iteration that goes past the key poll ends as its process loop
    does. *)
Lemma tick_outcome (fmt_f : nat -> nat -> Q -> string) (env : TickEnv)
    (st : LoopState) (w : World) :
  key_poll env = inr false ->
  match process_loop (process_iter env) [] with
  | inl e => tick fmt_f env st w = inl e
  | inr _ => exists st' w', tick fmt_f env st w = inr (Some st', w')
  end.
Proof.
  intros Hq. rewrite (tick_run fmt_f env st w Hq).
  destruct (tick_head_total env (last_status_glitch_time st) w)
    as [last' [w1 [Hhead _]]].
  rewrite Hhead.
  destruct (process_loop (process_iter env) []) as [e | processes];
    [reflexivity|].
  eexists. eexists. reflexivity.
Qed.

(** X8: when the quit key is read the iteration breaks at once: nothing is
    drawn and the generator is not read; the readings of later iterations
    are never looked at, so the loop ends as if they were not there. *)
Theorem quit_key_stops_the_loop :
  forall (fmt_f : nat -> nat -> Q -> string) (env : TickEnv),
    getch env = inr ord_q ->
    (forall st w, tick fmt_f env st w = inr (None, w))
    /\ (forall pre post st w,
          run_ticks fmt_f (pre ++ env :: post) st w = run_ticks fmt_f pre st w).
Proof.
  intros fmt_f env Hkey.
  assert (Hq : key_poll env = inr true) by (unfold key_poll; now rewrite Hkey).
  split; [intros st w; now apply tick_quit|].
  induction pre as [|env1 pre IH]; intros post st w.
  - cbn [app run_ticks]. rewrite (bind_run _ _ _ _ _ (tick_quit fmt_f env st w Hq)).
    reflexivity.
  - cbn [app run_ticks]. unfold bind.
    destruct (tick fmt_f env1 st w) as [e | [[st1|] w1]]; [reflexivity | | reflexivity].
    apply IH.
Qed.

Lemma quit_key_stops_the_loop_witness :
  run_ticks fmt_floor
    ([sample_env] ++ with_getch sample_env (inr ord_q) :: [sample_env_next])
    (mkLoopState 5 []) zero_world
  = run_ticks fmt_floor [sample_env] (mkLoopState 5 []) zero_world.
Proof.
  apply (proj2 (quit_key_stops_the_loop fmt_floor
                  (with_getch sample_env (inr ord_q)) eq_refl)).
Defined.

(** X9: what [stdscr.getch()] raises meets [except Exception].  An
    exception of that class is swallowed, and the iteration goes on exactly
    as one in which a key other than the quit key was read; a
    KeyboardInterrupt or a SystemExit is not of that class and leaves the
    iteration as it was raised. *)
Theorem getch_exception_ignored :
  forall (fmt_f : nat -> nat -> Q -> string) (env : TickEnv) (e : PyError)
         (key : Z) (st : LoopState) (w : World),
    key <> ord_q ->
    (is_Exception e = true ->
     tick fmt_f (with_getch env (inl e)) st w
     = tick fmt_f (with_getch env (inr key)) st w)
    /\ (is_Exception e = false ->
        tick fmt_f (with_getch env (inl e)) st w = inl e).
Proof.
  intros fmt_f env e key st w Hkey.
  assert (Hq2 : key_poll (with_getch env (inr key)) = inr false).
  { unfold key_poll. cbn [getch with_getch]. f_equal. now apply Z.eqb_neq. }
  split; intros He.
  - assert (Hq1 : key_poll (with_getch env (inl e)) = inr false).
    { unfold key_poll. cbn [getch with_getch]. now rewrite He. }
    rewrite (tick_run fmt_f (with_getch env (inl e)) st w Hq1).
    rewrite (tick_run fmt_f (with_getch env (inr key)) st w Hq2).
    reflexivity.
  - apply tick_poll_raises. unfold key_poll. cbn [getch with_getch].
    now rewrite He.
Qed.

Lemma getch_exception_ignored_witness :
  tick fmt_floor (with_getch sample_env (inl OtherError)) (mkLoopState 5 []) zero_world
  = tick fmt_floor (with_getch sample_env (inr (-1))) (mkLoopState 5 []) zero_world
  /\ tick fmt_floor (with_getch sample_env (inl KeyboardInterrupt))
          (mkLoopState 5 []) zero_world = inl KeyboardInterrupt.
Proof.
  split.
  - apply (proj1 (getch_exception_ignored fmt_floor sample_env OtherError (-1)
                    (mkLoopState 5 []) zero_world ltac:(discriminate))).
    reflexivity.
  - apply (proj2 (getch_exception_ignored fmt_floor sample_env KeyboardInterrupt (-1)
                    (mkLoopState 5 []) zero_world ltac:(discriminate))).
    reflexivity.
Defined.

(** X10: nothing in the loop handles what escapes the process loop.  If
    the quit key is not read and some read raises an exception that the
    [except] clause does not name, the iteration raises, and so does the
    loop, whatever the later iterations would read. *)
Theorem uncaught_read_ends_the_loop :
  forall (fmt_f : nat -> nat -> Q -> string) (env : TickEnv) (st : LoopState)
         (w : World) (e : PyError),
    getch env <> inr ord_q ->
    process_loop (process_iter env) [] = inl e ->
    (exists e', tick fmt_f env st w = inl e')
    /\ (forall rest, exists e', run_ticks fmt_f (env :: rest) st w = inl e').
Proof.
  intros fmt_f env st w e Hkey Hloop.
  assert (Htick : exists e', tick fmt_f env st w = inl e').
  { destruct (key_poll env) as [e0 | [|]] eqn:Hq.
    - exists e0. now apply tick_poll_raises.
    - exfalso. apply Hkey. unfold key_poll in Hq.
      destruct (getch env) as [e1 | key].
      + destruct (is_Exception e1); discriminate.
      + injection Hq as Hq. apply Z.eqb_eq in Hq. now subst key.
    - exists e. pose proof (tick_outcome fmt_f env st w Hq) as Hout.
      now rewrite Hloop in Hout. }
  split; [exact Htick|].
  intros rest. destruct Htick as [e' He']. exists e'.
  cbn [run_ticks]. now apply bind_fail.
Qed.

Lemma uncaught_read_ends_the_loop_witness :
  exists e',
    tick fmt_floor (with_processes sample_env [Raises OtherError])
         (mkLoopState 5 []) zero_world = inl e'.
Proof.
  apply (proj1 (uncaught_read_ends_the_loop fmt_floor
                  (with_processes sample_env [Raises OtherError])
                  (mkLoopState 5 []) zero_world OtherError
                  ltac:(discriminate) eq_refl)).
Defined.

(** X11: the process loop raises exactly when some read raises an
    exception the [except] clause does not name; it is the first such read
    that decides, whatever was collected before it and whatever comes
    after. *)
Theorem process_loop_first_uncaught :
  forall (reads : list ProcRead) (acc : list ProcEntry) (e : PyError),
    process_loop reads acc = inl e
    <-> exists pre post,
          reads = (pre ++ Raises e :: post)%list
          /\ forallb passes pre = true
          /\ caught e = false.
Proof.
  intros reads acc e. split.
  - revert acc. induction reads as [|p reads IH]; intros acc H; [discriminate|].
    cbn [process_loop] in H. destruct p as [info | e1]; cbn [try_body] in H.
    + destruct (IH _ H) as [pre [post [Hreads [Hpre He]]]].
      exists (Read info :: pre), post. subst reads. auto.
    + destruct (caught e1) eqn:E1.
      * destruct (IH _ H) as [pre [post [Hreads [Hpre He]]]].
        exists (Raises e1 :: pre), post. subst reads.
        split; [reflexivity|]. split; [|exact He].
        cbn [forallb passes]. now rewrite E1.
      * injection H as ->. exists [], reads. auto.
  - intros [pre [post [Hreads [Hpre He]]]]. subst reads.
    rewrite process_loop_app, (process_loop_entries pre Hpre).
    cbn [process_loop try_body]. now rewrite He.
Qed.

Lemma process_loop_first_uncaught_witness :
  process_loop
    ([Read (mkProcInfo 1 "init" None 1 2 3 4); Raises AccessDenied]
     ++ Raises OtherError :: [Read (mkProcInfo 2 "bash" None 1 2 3 4)])
    [] = inl OtherError.
Proof.
  apply (proj2 (process_loop_first_uncaught _ [] OtherError)).
  exists [Read (mkProcInfo 1 "init" None 1 2 3 4); Raises AccessDenied],
         [Read (mkProcInfo 2 "bash" None 1 2 3 4)].
  split; [reflexivity|]. split; reflexivity.
Defined.

(** ** The layout of an iteration *)

Lemma rows_values :
  live_feed_row = 8 /\ status_row = 9 /\ base_row = 11 /\ proc_start = 19
  /\ separator_row = 45 /\ log_start_row = 46.
Proof. repeat split; reflexivity. Qed.

Lemma in_rows_enumerate {A} (lo hi : Z) (write : nat -> A -> Event) (l : list A) :
  forall i0 : nat,
    (forall i x, (i0 <= i < i0 + List.length l)%nat -> in_rows lo hi (write i x)) ->
    Forall (in_rows lo hi) (enumerate_events write i0 l).
Proof.
  induction l as [|x l IH]; intros i0 H; cbn [enumerate_events]; constructor.
  - apply H. simpl. lia.
  - apply IH. intros i y Hi. apply H. simpl. lia.
Qed.

Lemma in_rows_parts (lo hi row : Z) (parts : list (string * Attr)) :
  lo <= row < hi ->
  forall x, Forall (in_rows lo hi) (parts_events row x parts).
Proof.
  intros Hrow. induction parts as [|[text color] parts IH]; intros x;
    cbn [parts_events]; constructor; [exact Hrow | apply IH].
Qed.

Lemma in_rows_table (fmt_f : nat -> nat -> Q -> string) (lo hi : Z)
    (rows : list ProcEntry) :
  forall i0 : nat,
    lo <= proc_start + Z.of_nat i0 ->
    proc_start + Z.of_nat i0 + Z.of_nat (List.length rows) <= hi ->
    Forall (in_rows lo hi) (rows_events fmt_f i0 rows).
Proof.
  induction rows as [|p rows IH]; intros i0 Hlo Hhi; cbn [rows_events];
    [constructor|].
  cbn [List.length] in Hhi. apply Forall_app. split.
  - apply in_rows_parts. lia.
  - apply IH; lia.
Qed.

Lemma in_rows_animation (lo hi : Z) (shows : list string) (color : Attr)
    (row x : Z) (frame_delay : Q) :
  lo <= row < hi ->
  Forall (in_rows lo hi) (animation_events shows color row x frame_delay).
Proof.
  intros Hrow. induction shows as [|shown shows IH]; [constructor|].
  unfold animation_events in *. cbn [flat_map frame_events app].
  repeat (constructor; [exact Hrow || exact I|]). exact IH.
Qed.

Lemma log_append_length (l : list string) (m : string) :
  (List.length l <= MAX_LOG_LINES)%nat ->
  (List.length (log_append l m) <= MAX_LOG_LINES)%nat.
Proof.
  intros H. rewrite log_append_cases, length_app. cbn [List.length].
  unfold MAX_LOG_LINES in *.
  destruct (Nat.ltb_spec (List.length l) 4); [lia|].
  destruct l as [|x l]; simpl in *; lia.
Qed.

Lemma tick_head_events (env : TickEnv) (last : Q) (w : World) :
  exists live_feed shows last' w1,
    tick_head env last w = inr (last', w1)
    /\ trace w1 =
       (trace w
        ++ [Addstr live_feed_row 4 ("HANDSHAKE ID: " ++ live_feed) (color_pair 6)]
        ++ animation_events shows
             (status_color (get_system_status (cpu_percent env)
                              (virtual_memory_percent env)))
             status_row 4 FRAME_DELAY
        ++ [status_redraw env])%list.
Proof.
  destruct (tick_head_run env last w) as [live_feed Hhead]. rewrite Hhead.
  match goal with
  | |- context [status_line_step env last ?w0] =>
      destruct (status_line_step_frames env last w0)
        as [shows [last' [w1 [Hrun [_ [Htr _]]]]]]
  end.
  exists live_feed, shows, last', w1. split; [exact Hrun|].
  rewrite Htr. cbn [trace]. now rewrite <- app_assoc.
Qed.

(** X12: the regions of the screen are fixed and apart.  In an iteration
    that completes on a log within its capacity, what is written before the
    table (device id, status line, overview, table header) stays in rows 8
    to 18, the table rows in rows 19 to 44, the separator is on row 45 and
    the log block in rows 46 to 49; the flush and the sleep come last. *)
Theorem tick_layout :
  forall (fmt_f : nat -> nat -> Q -> string) (env : TickEnv)
         (st st' : LoopState) (w w' : World),
    tick fmt_f env st w = inr (Some st', w') ->
    (List.length (log_lines st) <= MAX_LOG_LINES)%nat ->
    exists head table log text color,
      trace w' =
      (trace w ++ head ++ table ++ [Addstr 45 4 text color] ++ log
       ++ [Refresh; Sleep REFRESH_RATE])%list
      /\ Forall (in_rows 8 19) head
      /\ Forall (in_rows 19 45) table
      /\ Forall (in_rows 46 50) log.
Proof.
  intros fmt_f env st st' w w' Htick Hlog.
  rewrite (tick_run fmt_f env st w (tick_some_not_quit _ _ _ _ _ _ Htick)) in Htick.
  destruct (tick_head_events env (last_status_glitch_time st) w)
    as [live_feed [shows [last' [w1 [Hhead Htr]]]]].
  rewrite Hhead in Htick.
  destruct (process_loop (process_iter env) []) as [e | processes];
    [discriminate|].
  injection Htick as _ Hw. subst w'.
  destruct rows_values as [R8 [R9 [R11 [R19 [R45 R46]]]]].
  unfold tick_tail_events. cbn [add_events trace]. rewrite Htr.
  match goal with
  | |- context [(?dev ++ ?anim ++ [status_redraw env])%list] =>
      match goal with
      | |- context [(?over ++ [?hdr] ++ ?tab ++ [Addstr separator_row 4 ?t ?c]
                     ++ ?lg ++ [Refresh; Sleep REFRESH_RATE])%list] =>
          exists (dev ++ anim ++ [status_redraw env] ++ over ++ [hdr])%list,
                 tab, lg, t, c
      end
  end.
  split; [|split; [|split]].
  - rewrite R45. rewrite <- !app_assoc. reflexivity.
  - repeat (apply Forall_app; split).
    + constructor; [|constructor]. cbn [in_rows]. lia.
    + apply in_rows_animation. lia.
    + constructor; [|constructor]. unfold status_redraw. cbn [in_rows]. lia.
    + apply in_rows_enumerate. intros i x Hi. cbn [in_rows].
      cbn [List.length system_lines] in Hi. lia.
    + constructor; [|constructor]. cbn [in_rows]. lia.
  - apply in_rows_table; [lia|].
    unfold displayed. pose proof (firstn_le_length TOP_N_PROCS (sort_reverse cpu processes)).
    unfold TOP_N_PROCS in *. lia.
  - unfold log_events. apply in_rows_enumerate. intros i x Hi. cbn [in_rows].
    pose proof (log_append_length (log_lines st) (log_message fmt_f env) Hlog) as Hl.
    unfold MAX_LOG_LINES in Hl. lia.
Qed.

Lemma tick_layout_witness :
  exists st' w',
    (tick fmt_floor sample_env (mkLoopState 5 []) zero_world = inr (Some st', w')
     /\ (List.length (log_lines (mkLoopState 5 [])) <= MAX_LOG_LINES)%nat)
    /\ exists head table log text color,
         trace w' =
         (trace zero_world ++ head ++ table ++ [Addstr 45 4 text color] ++ log
          ++ [Refresh; Sleep REFRESH_RATE])%list
         /\ Forall (in_rows 8 19) head
         /\ Forall (in_rows 19 45) table
         /\ Forall (in_rows 46 50) log.
Proof.
  eexists. eexists.
  refine ((fun E => conj E (tick_layout fmt_floor sample_env _ _ zero_world _
                              (proj1 E) (proj2 E))) _).
  split; [vm_compute; reflexivity | simpl; unfold MAX_LOG_LINES; lia].
Defined.

(** ** Which processes the table shows *)

Lemma StronglySorted_app_inv {A} (R : A -> A -> Prop) (l1 l2 : list A) :
  StronglySorted R (l1 ++ l2) ->
  forall x y, In x l1 -> In y l2 -> R x y.
Proof.
  induction l1 as [|a l1 IH]; intros Hs x y Hx Hy; [contradiction|].
  cbn [app] in Hs. inversion Hs as [|? ? Hs' Hall]; subst.
  destruct Hx as [-> | Hx].
  - rewrite Forall_forall in Hall. apply Hall. apply in_or_app. now right.
  - now apply IH.
Qed.

(** X13: the table shows the busiest processes.  Every entry left out has
    no more cpu than every entry shown; when there are at most 25 entries
    all of them are shown, and otherwise exactly 25. *)
Theorem displayed_are_the_busiest : forall processes : list ProcEntry,
  (forall p q,
     In p (displayed processes) ->
     In q (skipn TOP_N_PROCS (sort_reverse cpu processes)) ->
     (cpu q <= cpu p)%Q)
  /\ Permutation (displayed processes
                  ++ skipn TOP_N_PROCS (sort_reverse cpu processes)) processes
  /\ ((List.length processes <= TOP_N_PROCS)%nat ->
      Permutation (displayed processes) processes)
  /\ ((TOP_N_PROCS <= List.length processes)%nat ->
      List.length (displayed processes) = TOP_N_PROCS).
Proof.
  intros processes. unfold displayed.
  pose proof (sort_reverse_perm cpu processes) as Hperm.
  pose proof (sort_reverse_sorted cpu processes) as Hsorted.
  pose proof (Permutation_length Hperm) as Hlen.
  split; [|split; [|split]].
  - intros p q Hp Hq.
    rewrite <- (firstn_skipn TOP_N_PROCS (sort_reverse cpu processes)) in Hsorted.
    exact (StronglySorted_app_inv _ _ _ Hsorted p q Hp Hq).
  - now rewrite firstn_skipn.
  - intros H. rewrite firstn_all2 by lia. exact Hperm.
  - intros H. rewrite length_firstn. lia.
Qed.

Lemma displayed_are_the_busiest_witness :
  Permutation
    (displayed [ mkProcEntry 1 "a" 10 0 "" "p1"; mkProcEntry 2 "a" 90 0 "" "p2" ])
    [ mkProcEntry 1 "a" 10 0 "" "p1"; mkProcEntry 2 "a" 90 0 "" "p2" ].
Proof.
  apply (proj1 (proj2 (proj2 (displayed_are_the_busiest
           [ mkProcEntry 1 "a" 10 0 "" "p1"; mkProcEntry 2 "a" 90 0 "" "p2" ])))).
  unfold TOP_N_PROCS. simpl. lia.
Defined.

(** X14: sorting leaves alone what is already in decreasing cpu order,
    ties included, so sorting twice is sorting once. *)
Theorem sort_keeps_sorted_input : forall processes : list ProcEntry,
  (StronglySorted cpu_desc processes -> sort_reverse cpu processes = processes)
  /\ sort_reverse cpu (sort_reverse cpu processes) = sort_reverse cpu processes.
Proof.
  intros processes.
  assert (H : forall l, StronglySorted cpu_desc l -> sort_reverse cpu l = l).
  { intros l Hs. symmetry. apply sort_reverse_unique; [exact Hs | reflexivity]. }
  split; [apply H|].
  apply H. apply sort_reverse_sorted.
Qed.

Lemma sort_keeps_sorted_input_witness :
  sort_reverse cpu [ mkProcEntry 2 "a" 90 0 "" "p2"; mkProcEntry 4 "a" 90 0 "" "p4";
                     mkProcEntry 1 "a" 10 0 "" "p1" ]
  = [ mkProcEntry 2 "a" 90 0 "" "p2"; mkProcEntry 4 "a" 90 0 "" "p4";
      mkProcEntry 1 "a" 10 0 "" "p1" ].
Proof.
  apply (proj1 (sort_keeps_sorted_input _)).
  unfold cpu_desc.
  repeat (constructor; [|repeat (constructor; [cbn [cpu]; unfold Qle; simpl; lia|]); constructor]).
  constructor.
Defined.

(** ** The columns of a table row *)

Lemma slice_to_bound (n : nat) (s : string) :
  (String.length (Py.slice_to n s) <= n)%nat.
Proof. rewrite slice_to_length. lia. Qed.

(** X15: a table row built from an enumerated process has a USER column
    of exactly 9 characters and a COMMAND column of exactly 20, whatever
    the lengths of the username and of the process name; the TIME column
    is exactly 10 wide when the cpu time is below a hundred hours. *)
Theorem table_columns_fixed_width :
  forall (fmt_f : nat -> nat -> Q -> string) (info : ProcInfo),
    match line_parts fmt_f (make_entry info) with
    | [_; (user_part, _); _; _; (time_part, _); (name_part, _)] =>
        String.length user_part = 9%nat
        /\ String.length name_part = 20%nat
        /\ ((0 <= info_cpu_times_user info + info_cpu_times_system info)%Q ->
            (info_cpu_times_user info + info_cpu_times_system info < 360000)%Q ->
            String.length time_part = 10%nat)
    | _ => False
    end.
Proof.
  intros fmt_f info. unfold line_parts, make_entry. cbn [user name time].
  split; [|split].
  - rewrite length_append, ljust_length. cbn [String.length].
    assert (H : (String.length
                   match info_username info with
                   | Some u => if Py.truthy u then Py.slice_to 8 u else "?"
                   | None => "?"
                   end <= 8)%nat).
    { destruct (info_username info) as [u|]; [|simpl; lia].
      destruct (Py.truthy u); [apply slice_to_bound | simpl; lia]. }
    lia.
  - rewrite ljust_length. pose proof (slice_to_bound 20 (info_name info)). lia.
  - intros H0 H1.
    destruct (format_time_fields _ H0 H1) as [hh [mm [ss [Heq [Lh [Lm Ls]]]]]].
    rewrite length_append, rjust_length, Heq, !length_append, Lh, Lm, Ls.
    reflexivity.
Qed.

Lemma table_columns_fixed_width_witness :
  String.length
    (Py.rjust (time (make_entry (mkProcInfo 2 "bash" (Some "cameronthepiper") 30 2 3 4))) 9
     ++ " ") = 10%nat.
Proof.
  apply (proj2 (proj2 (table_columns_fixed_width fmt_floor
           (mkProcInfo 2 "bash" (Some "cameronthepiper") 30 2 3 4)))).
  - unfold Qle. simpl. lia.
  - unfold Qlt. simpl. lia.
Defined.

(** ** How far apart glitches are *)

Lemma tick_last_glitch_time (fmt_f : nat -> nat -> Q -> string) (env : TickEnv)
    (st st' : LoopState) (w w' : World) :
  tick fmt_f env st w = inr (Some st', w') ->
  last_status_glitch_time st' =
  if Py.gt (time_check env - last_status_glitch_time st)%Q
           (wait_of (tape w (cursor w + 3)))
  then time_after_glitch env
  else last_status_glitch_time st.
Proof.
  intros Htick.
  rewrite (tick_run fmt_f env st w (tick_some_not_quit _ _ _ _ _ _ Htick)) in Htick.
  destruct (tick_head_run env (last_status_glitch_time st) w) as [live_feed Hhead].
  rewrite Hhead in Htick.
  match type of Htick with
  | context [status_line_step env ?l ?w0] =>
      destruct (status_line_step_run env l w0) as [Hno Hyes]
  end.
  cbn [tape cursor] in Hno, Hyes.
  destruct (Py.gt _ _) eqn:E.
  - destruct (Hyes eq_refl) as [frames [w1 [Hrun _]]].
    rewrite Hrun in Htick.
    destruct (process_loop _ _); [discriminate|].
    injection Htick as Hst _. now rewrite <- Hst.
  - rewrite (Hno eq_refl) in Htick.
    destruct (process_loop _ _); [discriminate|].
    injection Htick as Hst _. now rewrite <- Hst.
Qed.

(** X16: whatever the generator reads, an iteration whose clock is no more
    than [MIN_WAIT] = 3 past the last glitch does not glitch and keeps
    [last_status_glitch_time], and an iteration whose clock is at least
    [MAX_WAIT] = 8 past it does glitch and takes the reading of the clock
    after the animation. *)
Theorem glitch_spacing :
  forall (fmt_f : nat -> nat -> Q -> string) (env : TickEnv)
         (st st' : LoopState) (w w' : World),
    tick fmt_f env st w = inr (Some st', w') ->
    ((time_check env - last_status_glitch_time st <= MIN_WAIT)%Q ->
     last_status_glitch_time st' = last_status_glitch_time st)
    /\ ((MAX_WAIT <= time_check env - last_status_glitch_time st)%Q ->
        last_status_glitch_time st' = time_after_glitch env).
Proof.
  intros fmt_f env st st' w w' Htick.
  rewrite (tick_last_glitch_time _ _ _ _ _ _ Htick).
  destruct (wait_of_range (tape w (cursor w + 3))) as [Hmin Hmax].
  split; intros H.
  - destruct (Py.gt _ _) eqn:E; [|reflexivity].
    apply gt_spec in E. exfalso.
    apply (Qlt_irrefl MIN_WAIT).
    eapply Qle_lt_trans; [exact Hmin|].
    eapply Qlt_le_trans; [exact E | exact H].
  - destruct (Py.gt _ _) eqn:E; [reflexivity|].
    apply gt_false in E. exfalso. apply E.
    eapply Qlt_le_trans; [exact Hmax | exact H].
Qed.

Lemma glitch_spacing_witness :
  exists st' w',
    tick fmt_floor sample_env (mkLoopState 5 []) zero_world = inr (Some st', w')
    /\ last_status_glitch_time st' = 5%Q.
Proof.
  eexists. eexists.
  refine ((fun E => conj E (proj1 (glitch_spacing fmt_floor sample_env
                                     (mkLoopState 5 []) _ zero_world _ E) _)) _).
  - vm_compute. intros H. discriminate H.
  - vm_compute. reflexivity.
Defined.

(** ** The device id *)

(** X17: generating a device id never fails, reads the generator three
    times and writes nothing; the id is three decimal numbers joined by
    dashes, the first two of 10000..99999 and the third of
    100000000000..999999999999. *)
Theorem generate_device_id_fields : forall w : World,
  exists a b c : Z,
    generate_device_id w =
    inr (Py.str_of_Z a ++ "-" ++ Py.str_of_Z b ++ "-" ++ Py.str_of_Z c,
         mkWorld (tape w) (cursor w + 3) (trace w))
    /\ 10000 <= a <= 99999
    /\ 10000 <= b <= 99999
    /\ 100000000000 <= c <= 999999999999.
Proof.
  intros w. unfold generate_device_id.
  rewrite (bind_run _ _ _ _ _ (randint_run 10000 99999 w ltac:(discriminate))).
  rewrite (bind_run _ _ _ _ _ (randint_run 10000 99999 _ ltac:(discriminate))).
  rewrite (bind_run _ _ _ _ _
             (randint_run 100000000000 999999999999 _ ltac:(discriminate))).
  cbn [tape cursor trace].
  eexists; eexists; eexists. split.
  - unfold ret. replace (cursor w + 3)%nat with (S (S (S (cursor w)))) by lia.
    reflexivity.
  - split; [|split]; apply randint_range; discriminate.
Qed.

(** ** The table an iteration draws *)

Lemma Forall_enumerate_events {A} (P : Event -> Prop) (write : nat -> A -> Event)
    (l : list A) :
  (forall i x, P (write i x)) ->
  forall i0, Forall P (enumerate_events write i0 l).
Proof.
  intros H. induction l as [|x l IH]; intros i0; cbn [enumerate_events];
    constructor; [apply H | apply IH].
Qed.

(** C6: the table shows [processes[:25]] of the sorted list, so at most 25
    entries; the sort rearranges the snapshot by decreasing cpu and keeps
    entries of equal cpu in enumeration order.  For cpu = [10, 90, 50, 90]
    the rows are the two 90s in their order, then the 50, then the 10.
    An iteration writes the rows of exactly these entries, one screen row
    each from the first table row down, six fields per row (pid, user,
    cpu, mem, time, name); everything it writes before them is above the
    table and everything after them is on the separator row or below. *)
Theorem process_table_top_n_stable : forall processes : list ProcEntry,
  TOP_N_PROCS = 25%nat
  /\ displayed processes = firstn TOP_N_PROCS (sort_reverse cpu processes)
  /\ (List.length (displayed processes) <= TOP_N_PROCS)%nat
  /\ Permutation (sort_reverse cpu processes) processes
  /\ StronglySorted cpu_desc (sort_reverse cpu processes)
  /\ (forall c, with_cpu c (sort_reverse cpu processes) = with_cpu c processes)
  /\ StronglySorted cpu_desc (displayed processes)
  /\ map pid (displayed [ mkProcEntry 1 "a" 10 0 "" "p1";
                          mkProcEntry 2 "a" 90 0 "" "p2";
                          mkProcEntry 3 "a" 50 0 "" "p3";
                          mkProcEntry 4 "a" 90 0 "" "p4" ]) = [2; 4; 3; 1]
  /\ (forall fmt_f env st w st' w',
        process_loop (process_iter env) [] = inr processes ->
        tick fmt_f env st w = inr (Some st', w') ->
        exists before after,
          trace w' =
          (trace w ++ before ++ rows_events fmt_f 0 (displayed processes)
           ++ after)%list
          /\ Forall (in_rows live_feed_row proc_start) before
          /\ Forall (in_rows proc_start
                       (proc_start + Z.of_nat (List.length (displayed processes))))
                    (rows_events fmt_f 0 (displayed processes))
          /\ Forall (fun e => match e with
                              | Addstr row _ _ _ => separator_row <= row
                              | _ => True
                              end) after)
  /\ (forall fmt_f i, rows_events fmt_f i [] = [])
  /\ (forall fmt_f i p rest,
        rows_events fmt_f i (p :: rest) =
        let row := proc_start + Z.of_nat i in
        let pid_text := Py.fmt_d 5 (pid p) ++ " " in
        let user_text := Py.ljust (user p) 8 ++ " " in
        let cpu_text := fmt_f 5%nat 1%nat (cpu p) ++ " " in
        let mem_text := fmt_f 5%nat 1%nat (mem p) ++ " " in
        let time_text := Py.rjust (time p) 9 ++ " " in
        let name_text := Py.ljust (name p) 20 in
        let x1 := 4 + Z.of_nat (String.length pid_text) in
        let x2 := x1 + Z.of_nat (String.length user_text) in
        let x3 := x2 + Z.of_nat (String.length cpu_text) in
        let x4 := x3 + Z.of_nat (String.length mem_text) in
        let x5 := x4 + Z.of_nat (String.length time_text) in
        ([ Addstr row 4 pid_text (color_pair 8);
           Addstr row x1 user_text (color_pair 8);
           Addstr row x2 cpu_text (cpu_color (cpu p));
           Addstr row x3 mem_text (mem_color (mem p));
           Addstr row x4 time_text (color_pair 8);
           Addstr row x5 name_text (color_pair 8) ]
         ++ rows_events fmt_f (S i) rest)%list).
Proof.
  intros processes. unfold cpu_desc, with_cpu.
  split; [reflexivity|]. split; [reflexivity|].
  split; [apply firstn_le_length|].
  split; [apply sort_reverse_perm|].
  split; [apply sort_reverse_sorted|].
  split; [intros c; apply sort_reverse_stable|].
  split; [apply StronglySorted_firstn, sort_reverse_sorted|].
  split; [reflexivity|].
  split; [|split; [reflexivity | reflexivity]].
  intros fmt_f env st w st' w' Hprocs Htick.
  rewrite (tick_run fmt_f env st w (tick_some_not_quit _ _ _ _ _ _ Htick)) in Htick.
  destruct (tick_head_events env (last_status_glitch_time st) w)
    as [live_feed [shows [last' [w1 [Hhead Htr]]]]].
  rewrite Hhead, Hprocs in Htick. injection Htick as _ Hw. subst w'.
  destruct rows_values as [R8 [R9 [R11 [R19 [R45 R46]]]]].
  unfold tick_tail_events. cbn [add_events trace]. rewrite Htr.
  match goal with
  | |- context [(?dev ++ ?anim ++ [status_redraw env])%list] =>
      match goal with
      | |- context [(?over ++ [?hdr] ++ ?tab ++ ?sep ++ ?lg
                     ++ [Refresh; Sleep REFRESH_RATE])%list] =>
          exists (dev ++ anim ++ [status_redraw env] ++ over ++ [hdr])%list,
                 (sep ++ lg ++ [Refresh; Sleep REFRESH_RATE])%list
      end
  end.
  split; [|split; [|split]].
  - rewrite <- !app_assoc. reflexivity.
  - rewrite R8, R19. repeat (apply Forall_app; split).
    + constructor; [|constructor]. cbn [in_rows]. lia.
    + apply in_rows_animation. lia.
    + constructor; [|constructor]. unfold status_redraw. cbn [in_rows]. lia.
    + apply in_rows_enumerate. intros i x Hi. cbn [in_rows].
      cbn [List.length system_lines] in Hi. lia.
    + constructor; [|constructor]. cbn [in_rows]. lia.
  - apply in_rows_table; lia.
  - repeat (apply Forall_app; split).
    + constructor; [|constructor]. lia.
    + unfold log_events. apply Forall_enumerate_events. intros i x.
      rewrite R45, R46. lia.
    + repeat constructor.
Qed.

Lemma process_table_top_n_stable_witness :
  exists st' w',
    (process_loop (process_iter sample_env) []
     = inr (entries_of (process_iter sample_env))
     /\ tick fmt_floor sample_env (mkLoopState 5 []) zero_world
        = inr (Some st', w'))
    /\ exists before after,
         trace w' =
         (trace zero_world ++ before
          ++ rows_events fmt_floor 0 (displayed (entries_of (process_iter sample_env)))
          ++ after)%list
         /\ Forall (in_rows live_feed_row proc_start) before
         /\ Forall (in_rows proc_start
                      (proc_start
                       + Z.of_nat (List.length
                                     (displayed (entries_of (process_iter sample_env))))))
                   (rows_events fmt_floor 0
                      (displayed (entries_of (process_iter sample_env))))
         /\ Forall (fun e => match e with
                             | Addstr row _ _ _ => separator_row <= row
                             | _ => True
                             end) after.
Proof.
  eexists. eexists.
  refine ((fun E => conj E
             ((proj1 (proj2 (proj2 (proj2 (proj2 (proj2 (proj2 (proj2 (proj2
                (process_table_top_n_stable
                   (entries_of (process_iter sample_env))))))))))))
                fmt_floor sample_env _ zero_world _ _ (proj1 E) (proj2 E))) _).
  split; [reflexivity | vm_compute; reflexivity].
Defined.
